(** * Weekly Monte-Carlo projection of four accounts (financial_projections.py)

    A shallow embedding of [run_single_simulation] and of the statistics that
    [simulate] derives from its runs.

    Numbers.  Every value the script manipulates is a Python [int] or a finite
    [float], hence a rational number; balances, rates and draws are modelled as
    canonical rationals [Qc] and the arithmetic is exact (rounding of binary
    floating point is not modelled).  Statements about the values of a run
    therefore keep the expressions of the source as they are written: sums
    and products are not regrouped, since regrouping is sound for rationals
    and not for binary64.  One definition, [isa_week_float64], carries the
    update of the ISA in binary64 itself, to compare the two.

    Lists.  Python lists are [list Qc]; subscripting follows Python: an index
    [i] with [0 <= i < len] selects position [i], an index with
    [-len <= i < 0] selects position [len + i], anything else raises
    [IndexError].

    Randomness.  [np.random.normal] reads the global generator of numpy.  The
    generator is a parameter of the development: [normal k loc scale] is the
    value returned by the [k]-th call made to it since the program started,
    given the arguments [loc] and [scale] of that call; the state of the
    generator is the number of calls made so far.  [np.sqrt] is a parameter
    too. *)

From Stdlib Require Import ZArith QArith Qcanon.
From Stdlib Require Import PrimFloat.
From stdpp Require Import base tactics option list list_numbers numbers.

Local Open Scope Z_scope.

(** ** Python values and exceptions *)

Inductive exn : Type :=
  | IndexError
  | ZeroDivisionError.

Inductive result (A : Type) : Type :=
  | Ok (a : A)
  | Raise (e : exn).
Arguments Ok {A} a.
Arguments Raise {A} e.

#[global] Instance result_ret : MRet result := fun A a => Ok a.
#[global] Instance result_bind : MBind result := fun A B f m =>
  match m with
  | Ok a => f a
  | Raise e => Raise e
  end.

#[global] Instance exn_eq_dec : EqDecision exn.
Proof. solve_decision. Defined.

#[global] Instance result_eq_dec `{EqDecision A} : EqDecision (result A).
Proof. solve_decision. Defined.

(** An integer used as a number. *)
Definition int (z : Z) : Qc := Qc_of_Z z.

(** The float literal [1.25]. *)
Definition float_1_25 : Qc := Q2Qc (5 # 4).

(** ** Lists *)

(** The position selected by the subscript [i] in a list of length [len]. *)
Definition py_index (len : nat) (i : Z) : option nat :=
  if decide (0 ≤ i < Z.of_nat len) then Some (Z.to_nat i)
  else if decide (- Z.of_nat len ≤ i < 0) then Some (Z.to_nat (Z.of_nat len + i))
  else None.

(** [l[i]] *)
Definition getitem (l : list Qc) (i : Z) : result Qc :=
  match py_index (length l) i with
  | Some k =>
      match l !! k with
      | Some x => Ok x
      | None => Raise IndexError
      end
  | None => Raise IndexError
  end.

(** [l[i] = v] *)
Definition setitem (l : list Qc) (i : Z) (v : Qc) : result (list Qc) :=
  match py_index (length l) i with
  | Some k => Ok (<[k := v]> l)
  | None => Raise IndexError
  end.

(** [[0]*n]: a negative count gives the empty list. *)
Definition zeros (n : Z) : list Qc := replicate (Z.to_nat n) (int 0).

(** [range(a, b)] *)
Definition range (a b : Z) : list Z := seqZ a (b - a).

(** [for x in xs: st = body(x, st)], stopping at the first exception. *)
Fixpoint for_each {S : Type} (xs : list Z) (body : Z → S → result S) (st : S)
  : result S :=
  match xs with
  | [] => Ok st
  | x :: xs' => st' ← body x st; for_each xs' body st'
  end.

(** ** The arguments and the result of [run_single_simulation] *)

Record config : Type := Config {
  current_account_balance_now : Qc;
  savings_account_balance_now : Qc;
  savings_account_interest : Qc;
  lisa_balance_now : Qc;
  isa_balance_now : Qc;
  isa_weekly_payment : Qc;
  isa_stdev : Qc;
  isa_mean : Qc;
  lisa_stdev : Qc;
  lisa_mean : Qc;
  lisa_weekly_payment : Qc;
  weekly_spendings_mean : Qc;
  weekly_spendings_stdev : Qc;
  annual_inflow : Qc;
  n_weeks : Z
}.

(** The four lists of weekly balances; also the dictionary that is returned,
    one field per key. *)
Record accounts : Type := Accounts {
  lisa : list Qc;
  savings_account : list Qc;
  current_account : list Qc;
  isa : list Qc
}.

#[global] Instance accounts_eq_dec : EqDecision accounts.
Proof. solve_decision. Defined.

(** The settings as the source has them at the top of [simulate]. *)
Definition settings : config := {|
  current_account_balance_now := int 100;
  savings_account_balance_now := int 1000;
  savings_account_interest := int 4;
  isa_balance_now := int 1000;
  isa_stdev := int 12;
  isa_mean := int 8;
  isa_weekly_payment := int 10;
  lisa_balance_now := int 1000;
  lisa_stdev := int 8;
  lisa_mean := int 4;
  lisa_weekly_payment := int 10;
  weekly_spendings_mean := int 300;
  weekly_spendings_stdev := int 100;
  annual_inflow := int (10000 + 100 * 30 + 3000);
  n_weeks := 52
|}.

(** Settings under which nothing moves: no income, no spending, no payments,
    no interest, no growth, no deviation; five weeks. *)
Definition scenario : config := {|
  current_account_balance_now := int 100;
  savings_account_balance_now := int 1000;
  savings_account_interest := int 0;
  isa_balance_now := int 1000;
  isa_stdev := int 0;
  isa_mean := int 0;
  isa_weekly_payment := int 0;
  lisa_balance_now := int 1000;
  lisa_stdev := int 0;
  lisa_mean := int 0;
  lisa_weekly_payment := int 0;
  weekly_spendings_mean := int 0;
  weekly_spendings_stdev := int 0;
  annual_inflow := int 0;
  n_weeks := 5
|}.

(** The lists to which [simulate] appends the lists of each run. *)
Record results : Type := Results {
  savings_account_results : list (list Qc);
  current_account_results : list (list Qc);
  isa_results : list (list Qc);
  lisa_results : list (list Qc)
}.

(** The numbers that [simulate] derives from the runs and shows in the titles
    and legends of its histograms.  The source names both percentages
    [p_lower]. *)
Record statistics : Type := Statistics {
  current_and_savings_final : list Qc;
  isa_final : list Qc;
  lisa_final : list Qc;
  total_final : list Qc;
  p_lower_current_and_savings : Qc;
  mean_current_and_savings : option Qc;
  mean_isa : option Qc;
  mean_lisa : option Qc;
  total_start : Qc;
  p_lower_total : Qc;
  mean_total : option Qc
}.

(** [a / b] on Python numbers. *)
Definition truediv (a b : Qc) : result Qc :=
  if decide (b = Q2Qc 0) then Raise ZeroDivisionError else Ok (a / b)%Qc.

(** [len(l)] as a number. *)
Definition len (l : list Qc) : Qc := int (Z.of_nat (length l)).

(** [np.mean] of a one-dimensional array; numpy gives [nan] for the empty
    array, which is [None] here. *)
Definition np_mean (xs : list Qc) : option Qc :=
  match xs with
  | [] => None
  | _ => Some (foldr Qcplus (Q2Qc 0) xs / len xs)%Qc
  end.

Section Simulation.

(** [normal k loc scale]: what the [k]-th call of [np.random.normal] returns
    when called with [loc] and [scale]. *)
Variable normal : nat → Qc → Qc → Qc.

(** [np.sqrt] *)
Variable np_sqrt : Qc → Qc.

Local Open Scope Qc_scope.

(** The body of the loop [for week in range(1, n_weeks)].  The state is the
    four lists and the number [k] of draws made so far. *)
Definition week_update (c : config) (week : Z) (st : accounts * nat)
  : result (accounts * nat) :=
  let '(Accounts lisa0 savings0 current0 isa0, k) := st in
  (* Savings account *)
  prev ← getitem savings0 (week - 1);
  let spent := normal k (weekly_spendings_mean c) (weekly_spendings_stdev c) in
  savings1 ← setitem savings0 week (prev + annual_inflow c / int 52 - spent);
  old ← getitem savings1 week;
  cur ← getitem savings1 week;
  savings2 ← setitem savings1 week
               (old + cur * (savings_account_interest c / int 100) / int 52);
  (* Current account *)
  prev ← getitem current0 (week - 1);
  current1 ← setitem current0 week prev;
  (* ISA *)
  prev ← getitem isa0 (week - 1);
  isa1 ← setitem isa0 week (prev + isa_weekly_payment c);
  old ← getitem isa1 week;
  cur ← getitem isa1 week;
  let growth := normal (k + 1) (isa_mean c / int 100 / int 52)
                       (isa_stdev c / int 100 / np_sqrt (int 52)) in
  isa2 ← setitem isa1 week (old + cur * growth);
  (* LISA *)
  prev ← getitem lisa0 (week - 1);
  lisa1 ← setitem lisa0 week (prev + lisa_weekly_payment c * float_1_25);
  old ← getitem lisa1 week;
  cur ← getitem lisa1 week;
  let growth := normal (k + 2) (lisa_mean c / int 100 / int 52)
                       (lisa_stdev c / int 100 / np_sqrt (int 52)) in
  lisa2 ← setitem lisa1 week (old + cur * growth);
  Ok (Accounts lisa2 savings2 current1 isa2, (k + 3)%nat).

(** [run_single_simulation], started when [k] draws have been made; it
    returns the dictionary and the number of draws made when it returns. *)
Definition run_single_simulation (c : config) (k : nat)
  : result (accounts * nat) :=
  let lisa0 := zeros (n_weeks c) in
  let savings0 := zeros (n_weeks c) in
  let current0 := zeros (n_weeks c) in
  let isa0 := zeros (n_weeks c) in
  lisa1 ← setitem lisa0 0 (lisa_balance_now c);
  savings1 ← setitem savings0 0 (savings_account_balance_now c);
  current1 ← setitem current0 0 (current_account_balance_now c);
  isa1 ← setitem isa0 0 (isa_balance_now c);
  for_each (range 1 (n_weeks c)) (week_update c)
           (Accounts lisa1 savings1 current1 isa1, k).

(** The balance that the two assignments of a week leave in the savings
    account, given the balance [prev] of the week before, when [k] draws
    have been made; likewise for the ISA and the LISA
    (see [week_update_Ok]). *)
Definition savings_next (c : config) (k : nat) (prev : Qc) : Qc :=
  let b := prev + annual_inflow c / int 52
           - normal k (weekly_spendings_mean c) (weekly_spendings_stdev c) in
  b + b * (savings_account_interest c / int 100) / int 52.

Definition isa_next (c : config) (k : nat) (prev : Qc) : Qc :=
  let b := prev + isa_weekly_payment c in
  b + b * normal (k + 1) (isa_mean c / int 100 / int 52)
                 (isa_stdev c / int 100 / np_sqrt (int 52)).

Definition lisa_next (c : config) (k : nat) (prev : Qc) : Qc :=
  let b := prev + lisa_weekly_payment c * float_1_25 in
  b + b * normal (k + 2) (lisa_mean c / int 100 / int 52)
                 (lisa_stdev c / int 100 / np_sqrt (int 52)).

(** [l] follows the recurrence [step] up to position [j]: each entry from 1 to
    [j] is [step] of the entry before it. *)
Definition follows (step : nat → Qc → Qc) (l : list Qc) (j : nat) : Prop :=
  ∀ w : nat, (1 ≤ w ≤ j)%nat →
    ∃ prev, l !! (w - 1)%nat = Some prev ∧ l !! w = Some (step w prev).

(** The invariant of the loop after the iterations for the weeks 1 to [j] of
    a run that started when [k0] draws had been made, with lists of length
    [N]. *)
Record loop_inv (c : config) (k0 N j : nat) (a : accounts) : Prop := LoopInv {
  inv_length_lisa : length (lisa a) = N;
  inv_length_savings : length (savings_account a) = N;
  inv_length_current : length (current_account a) = N;
  inv_length_isa : length (isa a) = N;
  inv_head_lisa : lisa a !! 0%nat = Some (lisa_balance_now c);
  inv_head_savings : savings_account a !! 0%nat = Some (savings_account_balance_now c);
  inv_head_current : current_account a !! 0%nat = Some (current_account_balance_now c);
  inv_head_isa : isa a !! 0%nat = Some (isa_balance_now c);
  inv_lisa : follows (λ w, lisa_next c (k0 + 3 * (w - 1))) (lisa a) j;
  inv_savings : follows (λ w, savings_next c (k0 + 3 * (w - 1))) (savings_account a) j;
  inv_current : follows (λ _ prev, prev) (current_account a) j;
  inv_isa : follows (λ w, isa_next c (k0 + 3 * (w - 1))) (isa a) j
}.

(** *** The runs and the statistics of [simulate] *)

(** The body of [for i in range(n)]: one run, its four lists appended to
    the four lists of results. *)
Definition run_and_append (c : config) (i : Z) (st : results * nat)
  : result (results * nat) :=
  let '(Results savings_rs current_rs isa_rs lisa_rs, k) := st in
  '(sim_results, k') ← run_single_simulation c k;
  Ok (Results (savings_rs ++ [savings_account sim_results])
              (current_rs ++ [current_account sim_results])
              (isa_rs ++ [isa sim_results])
              (lisa_rs ++ [lisa sim_results]), k').

(** [simulate(n)] without its plots, started when [k] draws have been made.
    The source writes the settings as local constants under the heading
    "Simulation settings - Edit the variables below!"; here they are the
    argument [c], and [settings] holds the values found in the source.
    The two dates that the source computes before the runs, for the titles
    of the plots, are left out as well; [datetime] raises [OverflowError]
    there when the day [7 * n_weeks] days from now is not a date it can
    hold, which takes more than a hundred thousand weeks either way. *)
Definition simulate_with (c : config) (n : Z) (k : nat) : result statistics :=
  '(Results savings_rs current_rs isa_rs lisa_rs, _) ←
    for_each (range 0 n) (run_and_append c) (Results [] [] [] [], k);
  savings_final ← mapM (λ i, getitem i (-1)) savings_rs;
  current_final ← mapM (λ i, getitem i (-1)) current_rs;
  current_and_savings ←
    mapM (λ i, a ← getitem savings_final i;
               b ← getitem current_final i;
               Ok (a + b)) (range 0 n);
  isa_fin ← mapM (λ i, getitem i (-1)) isa_rs;
  lisa_fin ← mapM (λ i, getitem i (-1)) lisa_rs;
  total ←
    mapM (λ i, a ← getitem savings_final i;
               b ← getitem current_final i;
               x ← getitem isa_fin i;
               y ← getitem lisa_fin i;
               Ok (a + b + x + y)) (range 0 n);
  below ← truediv (len (filter (λ x, x < int 0) current_and_savings)) (int n);
  let p_lower_1 := below * int 100 in
  let start := current_account_balance_now c + savings_account_balance_now c
               + isa_balance_now c + lisa_balance_now c in
  below ← truediv (len (filter (λ x, x < start) total)) (int n);
  let p_lower_2 := below * int 100 in
  Ok {| current_and_savings_final := current_and_savings;
        isa_final := isa_fin;
        lisa_final := lisa_fin;
        total_final := total;
        p_lower_current_and_savings := p_lower_1;
        mean_current_and_savings := np_mean current_and_savings;
        mean_isa := np_mean isa_fin;
        mean_lisa := np_mean lisa_fin;
        total_start := start;
        p_lower_total := p_lower_2;
        mean_total := np_mean total |}.

(** [simulate(n)], called by [main] before any draw has been made. *)
Definition simulate (n : Z) : result statistics := simulate_with settings n 0.

(** [main()]: a thousand runs. *)
Definition main : result statistics :=
  let n := 1000%Z in
  simulate n.

End Simulation.

(** [l[-1]] for a list that is not empty. *)
Definition last_balance (l : list Qc) : Qc := default (int 0) (list.last l).

(** The number of draws that a run over [n] weeks makes. *)
Definition draws_per_run (n : Z) : nat := (3 * (Z.to_nat n - 1))%nat.

(** The settings [c] with another number of weeks. *)
Definition with_n_weeks (c : config) (n : Z) : config := {|
  current_account_balance_now := current_account_balance_now c;
  savings_account_balance_now := savings_account_balance_now c;
  savings_account_interest := savings_account_interest c;
  isa_balance_now := isa_balance_now c;
  isa_stdev := isa_stdev c;
  isa_mean := isa_mean c;
  isa_weekly_payment := isa_weekly_payment c;
  lisa_balance_now := lisa_balance_now c;
  lisa_stdev := lisa_stdev c;
  lisa_mean := lisa_mean c;
  lisa_weekly_payment := lisa_weekly_payment c;
  weekly_spendings_mean := weekly_spendings_mean c;
  weekly_spendings_stdev := weekly_spendings_stdev c;
  annual_inflow := annual_inflow c;
  n_weeks := n
|}.


(** ** Generators *)

(** A generator of the location-scale kind, as numpy's is: the [k]-th call
    returns [loc + scale * z k], where [z k] is the [k]-th standard variate. *)
Definition location_scale (z : nat → Qc) : nat → Qc → Qc → Qc :=
  λ k loc scale, (loc + scale * z k)%Qc.

(** A sequence of variates, for examples: -1, 0, 1, -1, 0, 1, ... *)
Definition sawtooth (k : nat) : Qc := int (Z.of_nat (k mod 3) - 1).

(** A square root that is exact on nothing but close at 52, for examples. *)
Definition sqrt_near_52 (x : Qc) : Qc := Q2Qc (7211 # 1000).

(** A generator is degenerate at scale zero when a call with [scale = 0]
    returns [loc], as a normal distribution of standard deviation zero does. *)
Definition degenerate (normal : nat → Qc → Qc → Qc) : Prop :=
  ∀ (k : nat) (loc : Qc), normal k loc (int 0) = loc.

(** ** The embedding at work *)

Example getitem_last_entry : getitem [int 1; int 2; int 3] (-1) = Ok (int 3).
Proof. reflexivity. Qed.

Example getitem_out_of_range : getitem [int 1; int 2; int 3] 3 = Raise IndexError.
Proof. reflexivity. Qed.

Example setitem_before_start :
  setitem [int 1; int 2; int 3] (-4) (int 0) = Raise IndexError.
Proof. reflexivity. Qed.

Example range_1_4 : range 1 4 = [1; 2; 3]%Z.
Proof. reflexivity. Qed.

(** Three weeks of the settings of [simulate], without deviations: the
    savings account receives 16000/52, pays 300, and earns 4%/52. *)
Example run_three_weeks :
  run_single_simulation (location_scale sawtooth) sqrt_near_52
    (Config (int 100) (int 1000) (int 4) (int 1000) (int 1000) (int 10)
       (int 0) (int 8) (int 0) (int 4) (int 10) (int 300) (int 0)
       (int 16000) 3) 0
  = Ok ({| lisa := [int 1000; Q2Qc (105381 # 104); Q2Qc (138791981 # 135200)];
           savings_account :=
             [int 1000; Q2Qc (170431 # 169); Q2Qc (223422031 # 219700)];
           current_account := [int 100; int 100; int 100];
           isa := [int 1000; Q2Qc (65751 # 65); Q2Qc (43227051 # 42250)] |},
        6%nat).
Proof. apply (bool_decide_unpack _). by vm_compute. Qed.

(** Without its plots, [simulate(0)] divides by zero when it computes the
    first percentage. *)
Example simulate_no_run :
  simulate_with (location_scale sawtooth) sqrt_near_52 settings 0 0
  = Raise ZeroDivisionError.
Proof. reflexivity. Qed.

(** ** Subscripting with an index that is in range *)

Section ListFacts.

Implicit Types (l : list Qc) (i : Z) (v x : Qc).

Lemma py_index_nonneg (len : nat) i :
  0 ≤ i < Z.of_nat len → py_index len i = Some (Z.to_nat i).
Proof. intros Hi. unfold py_index. by rewrite decide_True. Qed.

Lemma py_index_last (len : nat) :
  (0 < len)%nat → py_index len (-1) = Some (len - 1)%nat.
Proof.
  intros Hlen. unfold py_index.
  rewrite decide_False by lia. rewrite decide_True by lia.
  f_equal. lia.
Qed.

Lemma py_index_nil i : py_index 0 i = None.
Proof. unfold py_index. by rewrite !decide_False by (simpl; lia). Qed.

Lemma py_index_Some_lt (len : nat) i (k : nat) :
  py_index len i = Some k → (k < len)%nat.
Proof.
  unfold py_index. repeat case_decide; intros [= <-]; lia.
Qed.

Lemma py_index_pos (len : nat) i (k : nat) :
  1 ≤ i → py_index len i = Some k → k = Z.to_nat i ∧ (1 ≤ k)%nat.
Proof.
  intros Hi. unfold py_index. repeat case_decide; intros [= <-]; lia.
Qed.

Lemma getitem_nonneg l i x :
  0 ≤ i → l !! Z.to_nat i = Some x → getitem l i = Ok x.
Proof.
  intros Hi Hx. unfold getitem.
  rewrite py_index_nonneg; [by rewrite Hx|].
  apply lookup_lt_Some in Hx. lia.
Qed.

Lemma getitem_last l x :
  list.last l = Some x → getitem l (-1) = Ok x.
Proof.
  intros Hx. unfold getitem.
  assert (0 < length l)%nat by (destruct l; [done | simpl; lia]).
  rewrite py_index_last by done.
  rewrite last_lookup in Hx.
  replace (length l - 1)%nat with (Nat.pred (length l)) by lia.
  by rewrite Hx.
Qed.

Lemma setitem_nonneg l i v :
  0 ≤ i < Z.of_nat (length l) → setitem l i v = Ok (<[Z.to_nat i := v]> l).
Proof. intros Hi. unfold setitem. by rewrite py_index_nonneg. Qed.

Lemma setitem_nil i v : setitem [] i v = Raise IndexError.
Proof. unfold setitem. simpl. by rewrite py_index_nil. Qed.

(** An assignment at a subscript [i >= 1] leaves position 0 alone. *)
Lemma setitem_pos_lookup_0 l l' i v :
  1 ≤ i → setitem l i v = Ok l' → l' !! 0%nat = l !! 0%nat.
Proof.
  intros Hi. unfold setitem.
  destruct (py_index (length l) i) as [k|] eqn:Hk; [|done].
  intros [= <-]. apply py_index_pos in Hk as [_ Hk]; [|done].
  apply list_lookup_insert_ne. lia.
Qed.

Lemma length_zeros (n : Z) : length (zeros n) = Z.to_nat n.
Proof. apply length_replicate. Qed.

Lemma getitem_of_nat l (w : nat) x :
  l !! w = Some x → getitem l (Z.of_nat w) = Ok x.
Proof. intros Hx. apply getitem_nonneg; [lia|]. by rewrite Nat2Z.id. Qed.

Lemma getitem_pred l (w : nat) x :
  (1 ≤ w)%nat → l !! (w - 1)%nat = Some x → getitem l (Z.of_nat w - 1) = Ok x.
Proof.
  intros Hw Hx. apply getitem_nonneg; [lia|].
  by replace (Z.to_nat (Z.of_nat w - 1)) with (w - 1)%nat by lia.
Qed.

Lemma setitem_of_nat l (w : nat) v :
  (w < length l)%nat → setitem l (Z.of_nat w) v = Ok (<[w := v]> l).
Proof.
  intros Hw. rewrite setitem_nonneg by lia. by rewrite Nat2Z.id.
Qed.

End ListFacts.

(** ** The loop *)

Lemma for_each_app {S : Type} (xs ys : list Z) (body : Z → S → result S) (st : S) :
  for_each (xs ++ ys) body st = (st' ← for_each xs body st; for_each ys body st').
Proof.
  revert st. induction xs as [|x xs IH]; intros st; simpl; [done|].
  destruct (body x st) as [st'|e]; simpl; [apply IH | done].
Qed.

Lemma for_each_Ok_snoc {S : Type} (xs : list Z) (x : Z) (body : Z → S → result S)
    (st st' st'' : S) :
  for_each xs body st = Ok st' → body x st' = Ok st'' →
  for_each (xs ++ [x]) body st = Ok st''.
Proof.
  intros H1 H2. rewrite for_each_app, H1. simpl. by rewrite H2.
Qed.

Section WeekUpdate.

Variable normal : nat → Qc → Qc → Qc.
Variable np_sqrt : Qc → Qc.

Local Open Scope Qc_scope.

Local Abbreviation week_update := (week_update normal np_sqrt).
Local Abbreviation run_single_simulation := (run_single_simulation normal np_sqrt).
Local Abbreviation savings_next := (savings_next normal).
Local Abbreviation isa_next := (isa_next normal np_sqrt).
Local Abbreviation lisa_next := (lisa_next normal np_sqrt).
Local Abbreviation loop_inv := (loop_inv normal np_sqrt).

(** One iteration, when every list has [w + 1] entries at least. *)
Lemma week_update_Ok c (w : nat) a k ps pc pi pl :
  (1 ≤ w)%nat →
  (w < length (savings_account a))%nat → (w < length (current_account a))%nat →
  (w < length (isa a))%nat → (w < length (lisa a))%nat →
  savings_account a !! (w - 1)%nat = Some ps →
  current_account a !! (w - 1)%nat = Some pc →
  isa a !! (w - 1)%nat = Some pi →
  lisa a !! (w - 1)%nat = Some pl →
  week_update c (Z.of_nat w) (a, k) =
    Ok (Accounts (<[w := lisa_next c k pl]> (lisa a))
                 (<[w := savings_next c k ps]> (savings_account a))
                 (<[w := pc]> (current_account a))
                 (<[w := isa_next c k pi]> (isa a)), (k + 3)%nat).
Proof.
  destruct a as [l s cu i]. simpl. intros Hw Hs Hc Hi Hl Hps Hpc Hpi Hpl.
  unfold week_update.
  rewrite (getitem_pred s w ps) by done. simpl.
  rewrite (setitem_of_nat s w) by done. simpl.
  rewrite (getitem_of_nat (<[w:=_]> s) w _ (list_lookup_insert_eq _ _ _ Hs)).
  simpl.
  rewrite setitem_of_nat by (by rewrite length_insert).
  rewrite list_insert_insert_eq. simpl.
  rewrite (getitem_pred cu w pc) by done. simpl.
  rewrite (setitem_of_nat cu w) by done. simpl.
  rewrite (getitem_pred i w pi) by done. simpl.
  rewrite (setitem_of_nat i w) by done. simpl.
  rewrite (getitem_of_nat (<[w:=_]> i) w _ (list_lookup_insert_eq _ _ _ Hi)).
  simpl.
  rewrite setitem_of_nat by (by rewrite length_insert).
  rewrite list_insert_insert_eq. simpl.
  rewrite (getitem_pred l w pl) by done. simpl.
  rewrite (setitem_of_nat l w) by done. simpl.
  rewrite (getitem_of_nat (<[w:=_]> l) w _ (list_lookup_insert_eq _ _ _ Hl)).
  simpl.
  rewrite setitem_of_nat by (by rewrite length_insert).
  by rewrite list_insert_insert_eq.
Qed.

Lemma follows_0 step (l : list Qc) : follows step l 0.
Proof. intros w Hw. lia. Qed.

Lemma follows_insert step (l : list Qc) (j : nat) p :
  follows step l j → l !! j = Some p → (S j < length l)%nat →
  follows step (<[S j := step (S j) p]> l) (S j).
Proof.
  intros Hl Hp Hlen w Hw. destruct (decide (w = S j)) as [->|Hne].
  - exists p. split.
    + rewrite list_lookup_insert_ne by lia.
      by replace (S j - 1)%nat with j by lia.
    + by apply list_lookup_insert_eq.
  - destruct (Hl w) as (prev & Hprev & Hcur); [lia|].
    exists prev. by rewrite !list_lookup_insert_ne by lia.
Qed.

Lemma follows_weaken step (l : list Qc) (j j' : nat) :
  (j' ≤ j)%nat → follows step l j → follows step l j'.
Proof. intros Hj Hl w Hw. apply Hl. lia. Qed.

(** A list that follows the identity recurrence is constant. *)
Lemma follows_id_constant (l : list Qc) (j : nat) x :
  l !! 0%nat = Some x → follows (λ _ prev, prev) l j →
  ∀ w : nat, (w ≤ j)%nat → l !! w = Some x.
Proof.
  intros H0 Hl w. induction w as [|w IH]; intros Hw; [done|].
  destruct (Hl (S w)) as (prev & Hprev & Hcur); [lia|].
  replace (S w - 1)%nat with w in Hprev by lia.
  rewrite IH in Hprev by lia. by injection Hprev as <-.
Qed.

Lemma follows_ext step1 step2 (l : list Qc) (j : nat) :
  (∀ (w : nat) p, (1 ≤ w ≤ j)%nat → step1 w p = step2 w p) →
  follows step1 l j → follows step2 l j.
Proof.
  intros Hstep Hl w Hw. destruct (Hl w Hw) as (prev & Hprev & Hcur).
  exists prev. by rewrite <- Hstep.
Qed.

(** Two lists of [j + 1] entries that start alike and follow the same
    recurrence are the same list. *)
Lemma follows_determined step (l1 l2 : list Qc) (j : nat) :
  length l1 = S j → length l2 = S j → l1 !! 0%nat = l2 !! 0%nat →
  follows step l1 j → follows step l2 j → l1 = l2.
Proof.
  intros Hlen1 Hlen2 Hhead H1 H2. apply list_eq. intros i.
  destruct (decide (i ≤ j)%nat) as [Hi|Hi].
  - induction i as [|i IH]; [done|].
    destruct (H1 (S i)) as (p1 & Hp1 & ->); [lia|].
    destruct (H2 (S i)) as (p2 & Hp2 & ->); [lia|].
    replace (S i - 1)%nat with i in * by lia.
    rewrite Hp1, Hp2 in IH. by injection (IH ltac:(lia)) as ->.
  - by rewrite !lookup_ge_None_2 by lia.
Qed.

(** A list that follows a recurrence which does not depend on the week is
    the sequence of the iterates of that recurrence. *)
Lemma follows_iter (f : Qc → Qc) (l : list Qc) (j : nat) x :
  l !! 0%nat = Some x → follows (λ _, f) l j →
  ∀ w : nat, (w ≤ j)%nat → l !! w = Some (Nat.iter w f x).
Proof.
  intros H0 Hl w. induction w as [|w IH]; intros Hw; [done|].
  destruct (Hl (S w)) as (prev & Hprev & Hcur); [lia|].
  replace (S w - 1)%nat with w in Hprev by lia.
  rewrite IH in Hprev by lia. injection Hprev as <-. by rewrite Hcur.
Qed.

(** The invariant is established by the assignments of week 0 and preserved
    by each iteration. *)
Lemma loop_inv_step c (k0 N j : nat) a :
  (S j < N)%nat → loop_inv c k0 N j a →
  ∃ a', week_update c (Z.of_nat (S j)) (a, (k0 + 3 * j)%nat)
        = Ok (a', (k0 + 3 * S j)%nat)
        ∧ loop_inv c k0 N (S j) a'.
Proof.
  intros Hj [Hl1 Hl2 Hl3 Hl4 Hh1 Hh2 Hh3 Hh4 Hf1 Hf2 Hf3 Hf4].
  destruct (lookup_lt_is_Some_2 (lisa a) j) as [pl Hpl]; [lia|].
  destruct (lookup_lt_is_Some_2 (savings_account a) j) as [ps Hps]; [lia|].
  destruct (lookup_lt_is_Some_2 (current_account a) j) as [pc Hpc]; [lia|].
  destruct (lookup_lt_is_Some_2 (isa a) j) as [pi Hpi]; [lia|].
  eexists. split.
  - rewrite (week_update_Ok c (S j) a _ ps pc pi pl);
      rewrite ?Nat.sub_succ, ?Nat.sub_0_r; try done; try lia.
    do 2 f_equal. lia.
  - split; simpl; rewrite ?length_insert; try done;
      try (rewrite list_lookup_insert_ne by lia; done).
    + apply (follows_insert (λ w, lisa_next c (k0 + 3 * (w - 1)))) in Hpl;
        [|done|lia].
      by rewrite Nat.sub_succ, Nat.sub_0_r in Hpl.
    + apply (follows_insert (λ w, savings_next c (k0 + 3 * (w - 1)))) in Hps;
        [|done|lia].
      by rewrite Nat.sub_succ, Nat.sub_0_r in Hps.
    + apply (follows_insert (λ _ prev, prev)) in Hpc; [done|done|lia].
    + apply (follows_insert (λ w, isa_next c (k0 + 3 * (w - 1)))) in Hpi;
        [|done|lia].
      by rewrite Nat.sub_succ, Nat.sub_0_r in Hpi.
Qed.

Lemma loop_inv_weeks c (k0 N : nat) a0 :
  loop_inv c k0 N 0 a0 →
  ∀ j : nat, (j < N)%nat →
    ∃ a, for_each (seqZ 1 (Z.of_nat j)) (week_update c) (a0, k0)
         = Ok (a, (k0 + 3 * j)%nat)
         ∧ loop_inv c k0 N j a.
Proof.
  intros H0 j. induction j as [|j IH]; intros Hj.
  - exists a0. split; [|done]. simpl. do 2 f_equal. lia.
  - destruct IH as (a & Hrun & Hinv); [lia|].
    destruct (loop_inv_step c k0 N j a) as (a' & Hstep & Hinv'); [done..|].
    exists a'. split; [|done].
    rewrite seqZ_S. apply (for_each_Ok_snoc _ _ _ _ _ _ Hrun).
    by replace (1 + Z.of_nat j)%Z with (Z.of_nat (S j)) by lia.
Qed.

(** A run with at least one week returns, having made three draws for each
    week after week 0, and its lists satisfy the invariant up to the last
    week. *)
Lemma run_single_simulation_inv c (k : nat) :
  (1 ≤ n_weeks c)%Z →
  ∃ a, run_single_simulation c k
       = Ok (a, (k + 3 * (Z.to_nat (n_weeks c) - 1))%nat)
       ∧ loop_inv c k (Z.to_nat (n_weeks c)) (Z.to_nat (n_weeks c) - 1) a.
Proof.
  intros Hn. unfold run_single_simulation.
  assert (Hlen : (0 ≤ 0 < Z.of_nat (length (zeros (n_weeks c))))%Z)
    by (rewrite length_zeros; lia).
  rewrite !setitem_nonneg by done. simpl.
  unfold range.
  replace (n_weeks c - 1)%Z with (Z.of_nat (Z.to_nat (n_weeks c) - 1)) by lia.
  apply loop_inv_weeks; [|lia].
  split; simpl; rewrite ?length_insert, ?length_zeros; try done;
    try (apply list_lookup_insert_eq; rewrite length_zeros; lia);
    apply follows_0.
Qed.

(** An iteration for a week [week >= 1] makes three draws and leaves
    position 0 of every list as it was. *)
Lemma week_update_head c (week : Z) a k a' k' :
  (1 ≤ week)%Z → week_update c week (a, k) = Ok (a', k') →
  k' = (k + 3)%nat
  ∧ lisa a' !! 0%nat = lisa a !! 0%nat
  ∧ savings_account a' !! 0%nat = savings_account a !! 0%nat
  ∧ current_account a' !! 0%nat = current_account a !! 0%nat
  ∧ isa a' !! 0%nat = isa a !! 0%nat.
Proof.
  intros Hweek. destruct a as [l s cu i]. unfold week_update.
  intros H.
  repeat match type of H with
         | (?m ≫= _) = Ok _ =>
             let E := fresh "E" in
             destruct m eqn:E; simpl in H; [|discriminate H]
         end.
  injection H as <- <-. simpl.
  repeat match goal with
         | E : setitem _ week _ = Ok _ |- _ =>
             apply (setitem_pos_lookup_0 _ _ _ _ Hweek) in E
         end.
  repeat split; congruence.
Qed.

End WeekUpdate.

(** ** Weekly balances of one run *)

Local Open Scope Qc_scope.

Lemma int_0 : int 0 = 0.
Proof. by apply Qc_is_canon. Qed.

Lemma int_1 : int 1 = 1.
Proof. by apply Qc_is_canon. Qed.

Lemma zero_div (x : Qc) : int 0 / x = int 0.
Proof. rewrite int_0. unfold Qcdiv. ring. Qed.

(** ** Generators that agree *)

(** An iteration reads the generator at the calls [k], [k + 1] and [k + 2]
    and nowhere else: with another generator that answers these three calls
    alike, from another count of calls, it computes the same lists. *)
Lemma week_update_same_draws normal1 normal2 np_sqrt c week a (k1 k2 : nat) a' k' :
  (∀ (i : nat) loc scale, (i < 3)%nat →
     normal1 (k1 + i)%nat loc scale = normal2 (k2 + i)%nat loc scale) →
  week_update normal1 np_sqrt c week (a, k1) = Ok (a', k') →
  week_update normal2 np_sqrt c week (a, k2) = Ok (a', (k2 + 3)%nat).
Proof.
  intros Hsame. destruct a as [l s cu i]. unfold week_update.
  rewrite <- (Hsame 2%nat), <- (Hsame 1%nat) by lia.
  generalize (Hsame 0%nat). rewrite !Nat.add_0_r. intros <-; [|lia].
  intros H.
  repeat match type of H with
         | (?m ≫= _) = Ok _ => destruct m; simpl in H |- *; [|discriminate H]
         end.
  by injection H as <- _.
Qed.

(** Two runs whose three recurrences coincide week by week return the same
    lists. *)
Lemma loop_inv_determined normal1 sqrt1 normal2 sqrt2 c (k1 k2 N j : nat) a1 a2 :
  N = S j →
  loop_inv normal1 sqrt1 c k1 N j a1 → loop_inv normal2 sqrt2 c k2 N j a2 →
  (∀ (w : nat) p, (1 ≤ w ≤ j)%nat →
     savings_next normal1 c (k1 + 3 * (w - 1)) p
     = savings_next normal2 c (k2 + 3 * (w - 1)) p) →
  (∀ (w : nat) p, (1 ≤ w ≤ j)%nat →
     isa_next normal1 sqrt1 c (k1 + 3 * (w - 1)) p
     = isa_next normal2 sqrt2 c (k2 + 3 * (w - 1)) p) →
  (∀ (w : nat) p, (1 ≤ w ≤ j)%nat →
     lisa_next normal1 sqrt1 c (k1 + 3 * (w - 1)) p
     = lisa_next normal2 sqrt2 c (k2 + 3 * (w - 1)) p) →
  a1 = a2.
Proof.
  intros -> [Hl1 Hl2 Hl3 Hl4 Hh1 Hh2 Hh3 Hh4 Hf1 Hf2 Hf3 Hf4]
            [Gl1 Gl2 Gl3 Gl4 Gh1 Gh2 Gh3 Gh4 Gf1 Gf2 Gf3 Gf4] Hs Hi Hl.
  destruct a1 as [l1 s1 c1 i1], a2 as [l2 s2 c2 i2]. simpl in *.
  f_equal.
  - apply (follows_determined _ _ _ j Hl1 Gl1 ltac:(congruence)
             (follows_ext _ _ _ _ Hl Hf1) Gf1).
  - apply (follows_determined _ _ _ j Hl2 Gl2 ltac:(congruence)
             (follows_ext _ _ _ _ Hs Hf2) Gf2).
  - apply (follows_determined _ _ _ j Hl3 Gl3 ltac:(congruence) Hf3 Gf3).
  - apply (follows_determined _ _ _ j Hl4 Gl4 ltac:(congruence)
             (follows_ext _ _ _ _ Hi Hf4) Gf4).
Qed.

(** ** Deviations equal to zero *)

Section Degenerate.

Variable normal : nat → Qc → Qc → Qc.
Variable np_sqrt : Qc → Qc.
Hypothesis normal_degenerate : degenerate normal.

Lemma savings_next_degenerate c (k : nat) p :
  weekly_spendings_stdev c = int 0 →
  savings_next normal c k p
  = (let b := p + annual_inflow c / int 52 - weekly_spendings_mean c in
     b + b * (savings_account_interest c / int 100) / int 52).
Proof.
  intros Hsd. unfold savings_next. by rewrite Hsd, normal_degenerate.
Qed.

Lemma isa_next_degenerate c (k : nat) p :
  isa_stdev c = int 0 →
  isa_next normal np_sqrt c k p
  = (p + isa_weekly_payment c) * (1 + isa_mean c / int 100 / int 52).
Proof.
  intros Hsd. unfold isa_next.
  rewrite Hsd, !zero_div, normal_degenerate. simpl. ring.
Qed.

Lemma lisa_next_degenerate c (k : nat) p :
  lisa_stdev c = int 0 →
  lisa_next normal np_sqrt c k p
  = (p + lisa_weekly_payment c * float_1_25)
    * (1 + lisa_mean c / int 100 / int 52).
Proof.
  intros Hsd. unfold lisa_next.
  rewrite Hsd, !zero_div, normal_degenerate. simpl. ring.
Qed.

End Degenerate.

Lemma location_scale_degenerate z : degenerate (location_scale z).
Proof. intros k loc. unfold location_scale. rewrite int_0. ring. Qed.


Lemma lisa_next_at_scale_zero normal np_sqrt c (k : nat) p :
  degenerate normal → lisa_stdev c = int 0 →
  lisa_next normal np_sqrt c k p
  = (let b := p + lisa_weekly_payment c * float_1_25 in
     b + b * (lisa_mean c / int 100 / int 52)).
Proof.
  intros Hdeg Hsd. unfold lisa_next. by rewrite Hsd, !zero_div, Hdeg.
Qed.

(** ** List comprehensions *)

Lemma mapM_Ok {A B : Type} (f : A → result B) (g : A → B) (l : list A) :
  Forall (λ x, f x = Ok (g x)) l → mapM f l = Ok (g <$> l).
Proof.
  induction 1 as [|x l Hx _ IH]; simpl; [done|].
  rewrite Hx. simpl. by rewrite IH.
Qed.

Lemma mapM_range_Ok {A B : Type} (f : Z → result B) (g : A → B) (l : list A)
    (m : Z) :
  (∀ (i : nat) x, l !! i = Some x → f (m + Z.of_nat i)%Z = Ok (g x)) →
  mapM f (seqZ m (Z.of_nat (length l))) = Ok (g <$> l).
Proof.
  revert m. induction l as [|x l IH]; intros m Hf.
  - by rewrite seqZ_nil.
  - rewrite seqZ_cons by (simpl; lia).
    replace (Z.pred (Z.of_nat (length (x :: l)))) with (Z.of_nat (length l))
      by (simpl; lia).
    simpl. specialize (Hf 0%nat x eq_refl) as Hx.
    rewrite Z.add_0_r in Hx. rewrite Hx. simpl.
    rewrite IH; [done|]. intros i y Hy.
    rewrite <- (Hf (S i) y Hy). f_equal. lia.
Qed.

Lemma getitem_last_balance (l : list Qc) :
  l ≠ [] → getitem l (-1) = Ok (last_balance l).
Proof.
  intros Hl. apply getitem_last. unfold last_balance.
  destruct (list.last l) as [x|] eqn:Hlast; [done|].
  by apply last_None in Hlast.
Qed.

(** ** Numbers *)

Lemma int_nonzero (n : Z) : (n ≠ 0)%Z → int n ≠ 0.
Proof. intros Hn H. rewrite <- Z2Qc_inj_0 in H. by apply Z2Qc_inj in H. Qed.

Lemma truediv_Ok (a : Qc) (n : Z) : (n ≠ 0)%Z → truediv a (int n) = Ok (a / int n).
Proof.
  intros Hn. unfold truediv. rewrite decide_False; [done|].
  by apply int_nonzero.
Qed.

(** A count out of [n], divided by [n], is a fraction. *)
Lemma fraction_bounds (m n : Z) :
  (0 ≤ m ≤ n)%Z → (0 < n)%Z → 0 ≤ int m / int n ∧ int m / int n ≤ 1.
Proof.
  intros Hm Hn.
  assert (Hpos : 0 < int n).
  { rewrite <- int_0. apply (proj1 (Z2Qc_inj_lt 0 n)). lia. }
  assert (Hne : int n ≠ 0) by (apply int_nonzero; lia).
  assert (Hmul : int m / int n * int n = int m)
    by (rewrite Qcmult_comm; by apply Qcmult_div_r).
  split; apply (Qcmult_lt_0_le_reg_r _ _ (int n) Hpos); rewrite Hmul.
  - rewrite Qcmult_0_l, <- int_0. apply (proj1 (Z2Qc_inj_le 0 m)). lia.
  - rewrite Qcmult_1_l. apply (proj1 (Z2Qc_inj_le m n)). lia.
Qed.

Lemma sum_constant (xs : list Qc) (v : Qc) :
  Forall (λ x, x = v) xs → foldr Qcplus 0 xs = len xs * v.
Proof.
  unfold len. induction 1 as [|y ys -> _ IH].
  - cbn [foldr length]. change (Z.of_nat 0) with 0%Z. rewrite int_0. ring.
  - simpl length. rewrite Nat2Z.inj_succ, <- Z.add_1_r.
    unfold int in *. rewrite Z2Qc_inj_add, Z2Qc_inj_1. simpl foldr.
    rewrite IH. ring.
Qed.

(** The mean of a non-empty array whose entries are all [v] is [v]. *)
Lemma np_mean_constant (xs : list Qc) (v : Qc) :
  xs ≠ [] → Forall (λ x, x = v) xs → np_mean xs = Some v.
Proof.
  intros Hne Hall. apply sum_constant in Hall.
  destruct xs as [|x xs]; [done|]. unfold np_mean. f_equal.
  rewrite Hall, Qcmult_comm. apply Qcdiv_mult_l.
  apply int_nonzero. simpl length. lia.
Qed.

(** ** The runs of [simulate] *)

Lemma getitem_fmap {A : Type} (f : A → Qc) (rs : list A) (i : nat) r :
  rs !! i = Some r → getitem (f <$> rs) (0 + Z.of_nat i)%Z = Ok (f r).
Proof.
  intros Hr. rewrite Z.add_0_l. apply getitem_of_nat.
  by rewrite list_lookup_fmap, Hr.
Qed.

Lemma sum_of_two_Ok {A : Type} (f g : A → Qc) (rs : list A) :
  mapM (λ i, a ← getitem (f <$> rs) i; b ← getitem (g <$> rs) i; Ok (a + b))
       (seqZ 0 (Z.of_nat (length rs)))
  = Ok ((λ r, f r + g r) <$> rs).
Proof.
  apply mapM_range_Ok. intros i r Hr.
  rewrite (getitem_fmap f _ _ _ Hr). simpl.
  by rewrite (getitem_fmap g _ _ _ Hr).
Qed.

Lemma sum_of_four_Ok {A : Type} (f g h e : A → Qc) (rs : list A) :
  mapM (λ i, a ← getitem (f <$> rs) i; b ← getitem (g <$> rs) i;
             x ← getitem (h <$> rs) i; y ← getitem (e <$> rs) i;
             Ok (a + b + x + y))
       (seqZ 0 (Z.of_nat (length rs)))
  = Ok ((λ r, f r + g r + h r + e r) <$> rs).
Proof.
  apply mapM_range_Ok. intros i r Hr.
  rewrite (getitem_fmap f _ _ _ Hr). simpl.
  rewrite (getitem_fmap g _ _ _ Hr). simpl.
  rewrite (getitem_fmap h _ _ _ Hr). simpl.
  by rewrite (getitem_fmap e _ _ _ Hr).
Qed.

Lemma last_balances_Ok {A : Type} (f : A → list Qc) (rs : list A) :
  Forall (λ r, f r ≠ []) rs →
  mapM (λ l, getitem l (-1)) (f <$> rs) = Ok ((λ r, last_balance (f r)) <$> rs).
Proof.
  intros Hne. rewrite (mapM_Ok _ last_balance).
  - by rewrite <- list_fmap_compose.
  - apply Forall_fmap. revert Hne. apply Forall_impl.
    intros r Hr. by apply getitem_last_balance.
Qed.

Section Ensemble.

Variable normal : nat → Qc → Qc → Qc.
Variable np_sqrt : Qc → Qc.

Local Abbreviation run_single_simulation := (run_single_simulation normal np_sqrt).
Local Abbreviation run_and_append := (run_and_append normal np_sqrt).
Local Abbreviation simulate_with := (simulate_with normal np_sqrt).

(** The lists of a run that returned are not empty. *)
Lemma run_lists_nonempty c (k : nat) a k' :
  (1 ≤ n_weeks c)%Z → run_single_simulation c k = Ok (a, k') →
  savings_account a ≠ [] ∧ current_account a ≠ [] ∧ isa a ≠ [] ∧ lisa a ≠ [].
Proof.
  intros Hn Hrun.
  destruct (run_single_simulation_inv normal np_sqrt c k Hn)
    as (a0 & Hrun0 & Hinv).
  rewrite Hrun0 in Hrun. injection Hrun as <- _.
  destruct Hinv as [Hl1 Hl2 Hl3 Hl4 _ _ _ _ _ _ _ _].
  repeat split; intros Hnil;
    [rewrite Hnil in Hl2|rewrite Hnil in Hl3|rewrite Hnil in Hl4
    |rewrite Hnil in Hl1]; simpl in *; lia.
Qed.

(** The loop [for i in range(n)]: run [i] starts where run [i - 1] left the
    generator, and the lists of the runs are collected in order. *)
Lemma runs_collected c (k : nat) (m : nat) :
  (1 ≤ n_weeks c)%Z →
  ∃ rs : list accounts,
    length rs = m
    ∧ (∀ (i : nat) a, rs !! i = Some a →
         run_single_simulation c (k + i * draws_per_run (n_weeks c))%nat
         = Ok (a, (k + S i * draws_per_run (n_weeks c))%nat))
    ∧ for_each (seqZ 0 (Z.of_nat m)) (run_and_append c) (Results [] [] [] [], k)
      = Ok (Results (savings_account <$> rs) (current_account <$> rs)
                    (isa <$> rs) (lisa <$> rs),
            (k + m * draws_per_run (n_weeks c))%nat).
Proof.
  intros Hn. induction m as [|m (rs & Hlen & Hruns & Hloop)].
  - exists []. repeat split; [done|]. simpl. do 2 f_equal. lia.
  - destruct (run_single_simulation_inv normal np_sqrt c
                (k + m * draws_per_run (n_weeks c))%nat Hn) as (a & Hrun & _).
    fold (draws_per_run (n_weeks c)) in Hrun.
    replace (k + m * draws_per_run (n_weeks c) + draws_per_run (n_weeks c))%nat
      with (k + S m * draws_per_run (n_weeks c))%nat in Hrun by lia.
    exists (rs ++ [a]). split; [|split].
    + rewrite length_app. simpl. lia.
    + intros i b Hb. apply lookup_app_Some in Hb as [Hb|[Hi Hb]]; [by apply Hruns|].
      rewrite Hlen in *. destruct (i - m)%nat as [|?] eqn:Him; [|done].
      injection Hb as <-. by replace i with m by lia.
    + rewrite seqZ_S. eapply for_each_Ok_snoc; [done|].
      unfold run_and_append. rewrite Hrun. simpl.
      by rewrite !fmap_app.
Qed.

(** [simulate] with settings of at least one week and [n >= 1] runs returns;
    its numbers are these functions of the lists of its runs. *)
Lemma simulate_with_Ok c (n : Z) (k : nat) :
  (1 ≤ n_weeks c)%Z → (1 ≤ n)%Z →
  ∃ rs : list accounts,
    length rs = Z.to_nat n
    ∧ (∀ (i : nat) a, rs !! i = Some a →
         run_single_simulation c (k + i * draws_per_run (n_weeks c))%nat
         = Ok (a, (k + S i * draws_per_run (n_weeks c))%nat))
    ∧ let both := (λ a, last_balance (savings_account a)
                        + last_balance (current_account a)) <$> rs in
      let total := (λ a, last_balance (savings_account a)
                         + last_balance (current_account a)
                         + last_balance (isa a)
                         + last_balance (lisa a)) <$> rs in
      let start := current_account_balance_now c + savings_account_balance_now c
                   + isa_balance_now c + lisa_balance_now c in
      simulate_with c n k
      = Ok {| current_and_savings_final := both;
              isa_final := (λ a, last_balance (isa a)) <$> rs;
              lisa_final := (λ a, last_balance (lisa a)) <$> rs;
              total_final := total;
              p_lower_current_and_savings :=
                len (filter (λ x, x < int 0) both) / int n * int 100;
              mean_current_and_savings := np_mean both;
              mean_isa := np_mean ((λ a, last_balance (isa a)) <$> rs);
              mean_lisa := np_mean ((λ a, last_balance (lisa a)) <$> rs);
              total_start := start;
              p_lower_total :=
                len (filter (λ x, x < start) total) / int n * int 100;
              mean_total := np_mean total |}.
Proof.
  intros Hweeks Hn.
  destruct (runs_collected c k (Z.to_nat n) Hweeks) as (rs & Hlen & Hruns & Hloop).
  exists rs. split; [done|]. split; [done|]. cbv zeta.
  assert (Hne : Forall (λ a, savings_account a ≠ [] ∧ current_account a ≠ []
                             ∧ isa a ≠ [] ∧ lisa a ≠ []) rs).
  { apply Forall_lookup. intros i a Ha. eapply run_lists_nonempty; eauto. }
  assert (Hseq : seqZ 0 n = seqZ 0 (Z.of_nat (length rs))) by (f_equal; lia).
  rewrite <- Hlen in Hloop.
  unfold simulate_with, range. rewrite Z.sub_0_r, !Hseq, Hloop.
  cbn [mbind result_bind].
  rewrite (last_balances_Ok savings_account)
    by (revert Hne; apply Forall_impl; by intros ? (? & ? & ? & ?)).
  cbn [mbind result_bind].
  rewrite (last_balances_Ok current_account)
    by (revert Hne; apply Forall_impl; by intros ? (? & ? & ? & ?)).
  cbn [mbind result_bind].
  rewrite sum_of_two_Ok. cbn [mbind result_bind].
  rewrite (last_balances_Ok isa)
    by (revert Hne; apply Forall_impl; by intros ? (? & ? & ? & ?)).
  cbn [mbind result_bind].
  rewrite (last_balances_Ok lisa)
    by (revert Hne; apply Forall_impl; by intros ? (? & ? & ? & ?)).
  cbn [mbind result_bind].
  rewrite sum_of_four_Ok. cbn [mbind result_bind].
  rewrite !truediv_Ok by lia. cbn [mbind result_bind].
  done.
Qed.

End Ensemble.

(** The entries that the invariant speaks of, read as Python reads them. *)
Lemma follows_getitem step (l : list Qc) (j : nat) (w : Z) :
  follows step l j → (1 ≤ w ≤ Z.of_nat j)%Z →
  ∃ prev, getitem l (w - 1) = Ok prev
          ∧ getitem l w = Ok (step (Z.to_nat w) prev).
Proof.
  intros Hl Hw. destruct (Hl (Z.to_nat w)) as (prev & Hprev & Hcur); [lia|].
  exists prev. split; apply getitem_nonneg; try lia; [|done].
  by replace (Z.to_nat (w - 1)) with (Z.to_nat w - 1)%nat by lia.
Qed.

(** C1.  In a run over at least one week, the savings balance of every week
    [w] from 1 to [n_weeks - 1] is obtained from the balance of week [w - 1]
    by adding [annual_inflow / 52] and subtracting the draw made for that
    week with mean [weekly_spendings_mean] and deviation
    [weekly_spendings_stdev]; the interest [balance * (rate / 100) / 52] is
    then computed from, and added to, that updated balance. *)
Theorem savings_account_weekly_update normal np_sqrt c (k : nat) (w : Z) :
  (1 ≤ n_weeks c)%Z → (1 ≤ w ≤ n_weeks c - 1)%Z →
  ∃ a k' prev,
    run_single_simulation normal np_sqrt c k = Ok (a, k')
    ∧ getitem (savings_account a) (w - 1) = Ok prev
    ∧ let spent := normal (k + 3 * Z.to_nat (w - 1))%nat
                     (weekly_spendings_mean c) (weekly_spendings_stdev c) in
      let balance := prev + annual_inflow c / int 52 - spent in
      getitem (savings_account a) w
      = Ok (balance + balance * (savings_account_interest c / int 100) / int 52).
Proof.
  intros Hn Hw.
  destruct (run_single_simulation_inv normal np_sqrt c k Hn) as (a & Hrun & Hinv).
  destruct (follows_getitem _ _ _ w (inv_savings _ _ _ _ _ _ _ Hinv))
    as (prev & Hprev & Hcur); [lia|].
  exists a, (k + 3 * (Z.to_nat (n_weeks c) - 1))%nat, prev. repeat split; [done..|].
  simpl. rewrite Hcur. unfold savings_next.
  by replace (Z.to_nat w - 1)%nat with (Z.to_nat (w - 1)) by lia.
Qed.

Lemma savings_account_weekly_update_witness :
  (1 ≤ n_weeks settings)%Z ∧ (1 ≤ 2 ≤ n_weeks settings - 1)%Z
  ∧ ∃ a k' prev,
      run_single_simulation (location_scale sawtooth) sqrt_near_52 settings 0
      = Ok (a, k')
      ∧ getitem (savings_account a) (2 - 1) = Ok prev
      ∧ getitem (savings_account a) 2
        = Ok (let balance := prev + int 16000 / int 52
                             - location_scale sawtooth 3 (int 300) (int 100) in
              balance + balance * (int 4 / int 100) / int 52).
Proof.
  split; [simpl; lia|]. split; [simpl; lia|].
  apply (savings_account_weekly_update
           (location_scale sawtooth) sqrt_near_52 settings 0 2); simpl; lia.
Defined.

(** C2.  In a run over at least one week, the ISA balance of every week [w]
    from 1 to [n_weeks - 1] is the balance of week [w - 1] plus
    [isa_weekly_payment], increased by that sum times the draw made for that
    week with mean [isa_mean / 100 / 52] and deviation
    [isa_stdev / 100 / sqrt 52]. *)
Theorem isa_weekly_update normal np_sqrt c (k : nat) (w : Z) :
  (1 ≤ n_weeks c)%Z → (1 ≤ w ≤ n_weeks c - 1)%Z →
  ∃ a k' prev,
    run_single_simulation normal np_sqrt c k = Ok (a, k')
    ∧ getitem (isa a) (w - 1) = Ok prev
    ∧ let growth := normal (k + 3 * Z.to_nat (w - 1) + 1)%nat
                      (isa_mean c / int 100 / int 52)
                      (isa_stdev c / int 100 / np_sqrt (int 52)) in
      let balance := prev + isa_weekly_payment c in
      getitem (isa a) w = Ok (balance + balance * growth).
Proof.
  intros Hn Hw.
  destruct (run_single_simulation_inv normal np_sqrt c k Hn) as (a & Hrun & Hinv).
  destruct (follows_getitem _ _ _ w (inv_isa _ _ _ _ _ _ _ Hinv))
    as (prev & Hprev & Hcur); [lia|].
  exists a, (k + 3 * (Z.to_nat (n_weeks c) - 1))%nat, prev. repeat split; [done..|].
  simpl. rewrite Hcur. unfold isa_next.
  by replace (Z.to_nat w - 1)%nat with (Z.to_nat (w - 1)) by lia.
Qed.

Lemma isa_weekly_update_witness :
  (1 ≤ n_weeks settings)%Z ∧ (1 ≤ 2 ≤ n_weeks settings - 1)%Z
  ∧ ∃ a k' prev,
      run_single_simulation (location_scale sawtooth) sqrt_near_52 settings 0
      = Ok (a, k')
      ∧ getitem (isa a) (2 - 1) = Ok prev
      ∧ getitem (isa a) 2
        = Ok (let balance := prev + int 10 in
              balance
              + balance * location_scale sawtooth 4 (int 8 / int 100 / int 52)
                            (int 12 / int 100 / sqrt_near_52 (int 52))).
Proof.
  split; [simpl; lia|]. split; [simpl; lia|].
  apply (isa_weekly_update
           (location_scale sawtooth) sqrt_near_52 settings 0 2); simpl; lia.
Defined.

(** C3.  In a run over at least one week, the LISA balance of every week [w]
    from 1 to [n_weeks - 1] is the balance of week [w - 1] plus
    [lisa_weekly_payment * 1.25], increased by that sum times the draw made
    for that week with mean [lisa_mean / 100 / 52] and deviation
    [lisa_stdev / 100 / sqrt 52]. *)
Theorem lisa_weekly_update normal np_sqrt c (k : nat) (w : Z) :
  (1 ≤ n_weeks c)%Z → (1 ≤ w ≤ n_weeks c - 1)%Z →
  ∃ a k' prev,
    run_single_simulation normal np_sqrt c k = Ok (a, k')
    ∧ getitem (lisa a) (w - 1) = Ok prev
    ∧ let growth := normal (k + 3 * Z.to_nat (w - 1) + 2)%nat
                      (lisa_mean c / int 100 / int 52)
                      (lisa_stdev c / int 100 / np_sqrt (int 52)) in
      let balance := prev + lisa_weekly_payment c * Q2Qc (5 # 4) in
      getitem (lisa a) w = Ok (balance + balance * growth).
Proof.
  intros Hn Hw.
  destruct (run_single_simulation_inv normal np_sqrt c k Hn) as (a & Hrun & Hinv).
  destruct (follows_getitem _ _ _ w (inv_lisa _ _ _ _ _ _ _ Hinv))
    as (prev & Hprev & Hcur); [lia|].
  exists a, (k + 3 * (Z.to_nat (n_weeks c) - 1))%nat, prev. repeat split; [done..|].
  simpl. rewrite Hcur. unfold lisa_next.
  by replace (Z.to_nat w - 1)%nat with (Z.to_nat (w - 1)) by lia.
Qed.

Lemma lisa_weekly_update_witness :
  (1 ≤ n_weeks settings)%Z ∧ (1 ≤ 2 ≤ n_weeks settings - 1)%Z
  ∧ ∃ a k' prev,
      run_single_simulation (location_scale sawtooth) sqrt_near_52 settings 0
      = Ok (a, k')
      ∧ getitem (lisa a) (2 - 1) = Ok prev
      ∧ getitem (lisa a) 2
        = Ok (let balance := prev + int 10 * Q2Qc (5 # 4) in
              balance
              + balance * location_scale sawtooth 5 (int 4 / int 100 / int 52)
                            (int 8 / int 100 / sqrt_near_52 (int 52))).
Proof.
  split; [simpl; lia|]. split; [simpl; lia|].
  apply (lisa_weekly_update
           (location_scale sawtooth) sqrt_near_52 settings 0 2); simpl; lia.
Defined.

(** C4.  In a run over at least one week, whatever the draws, the current
    account holds [current_account_balance_now] at every week from 0 to
    [n_weeks - 1]. *)
Theorem current_account_constant normal np_sqrt c (k : nat) (week : Z) :
  (1 ≤ n_weeks c)%Z → (0 ≤ week ≤ n_weeks c - 1)%Z →
  ∃ a k',
    run_single_simulation normal np_sqrt c k = Ok (a, k')
    ∧ getitem (current_account a) week = Ok (current_account_balance_now c).
Proof.
  intros Hn Hweek.
  destruct (run_single_simulation_inv normal np_sqrt c k Hn) as (a & Hrun & Hinv).
  exists a, (k + 3 * (Z.to_nat (n_weeks c) - 1))%nat. split; [done|].
  apply getitem_nonneg; [lia|].
  apply (follows_id_constant _ (Z.to_nat (n_weeks c) - 1));
    [apply Hinv | apply Hinv | lia].
Qed.

Lemma current_account_constant_witness :
  (1 ≤ n_weeks settings)%Z ∧ (0 ≤ 51 ≤ n_weeks settings - 1)%Z
  ∧ ∃ a k',
      run_single_simulation (location_scale sawtooth) sqrt_near_52 settings 0
      = Ok (a, k')
      ∧ getitem (current_account a) 51 = Ok (int 100).
Proof.
  split; [simpl; lia|]. split; [simpl; lia|].
  apply (current_account_constant
           (location_scale sawtooth) sqrt_near_52 settings 0 51); simpl; lia.
Defined.

(** C5.  In a run over at least one week, whatever the draws, the entry of
    week 0 of each of the four lists is the initial balance of that account;
    and an iteration of the loop, which runs for weeks [week >= 1] only,
    leaves the entry of week 0 of every list as it found it. *)
Theorem week_0_is_initial_balance normal np_sqrt c (k : nat) :
  (1 ≤ n_weeks c)%Z →
  (∃ a k',
     run_single_simulation normal np_sqrt c k = Ok (a, k')
     ∧ getitem (savings_account a) 0 = Ok (savings_account_balance_now c)
     ∧ getitem (current_account a) 0 = Ok (current_account_balance_now c)
     ∧ getitem (isa a) 0 = Ok (isa_balance_now c)
     ∧ getitem (lisa a) 0 = Ok (lisa_balance_now c))
  ∧ (∀ week, week ∈ range 1 (n_weeks c) →
     ∀ a0 k0 a1 k1,
       week_update normal np_sqrt c week (a0, k0) = Ok (a1, k1) →
       savings_account a1 !! 0%nat = savings_account a0 !! 0%nat
       ∧ current_account a1 !! 0%nat = current_account a0 !! 0%nat
       ∧ isa a1 !! 0%nat = isa a0 !! 0%nat
       ∧ lisa a1 !! 0%nat = lisa a0 !! 0%nat).
Proof.
  intros Hn. split.
  - destruct (run_single_simulation_inv normal np_sqrt c k Hn)
      as (a & Hrun & Hinv).
    exists a, (k + 3 * (Z.to_nat (n_weeks c) - 1))%nat. split; [done|].
    repeat split; apply getitem_nonneg; try lia; apply Hinv.
  - intros week Hweek a0 k0 a1 k1 Hstep.
    apply elem_of_seqZ in Hweek.
    apply week_update_head in Hstep as (_ & Hl & Hs & Hc & Hi); [|lia].
    done.
Qed.

Lemma week_0_is_initial_balance_witness :
  (1 ≤ n_weeks settings)%Z
  ∧ ∃ a k',
      run_single_simulation (location_scale sawtooth) sqrt_near_52 settings 0
      = Ok (a, k')
      ∧ getitem (savings_account a) 0 = Ok (int 1000)
      ∧ getitem (current_account a) 0 = Ok (int 100)
      ∧ getitem (isa a) 0 = Ok (int 1000)
      ∧ getitem (lisa a) 0 = Ok (int 1000).
Proof.
  split; [simpl; lia|].
  apply (week_0_is_initial_balance
           (location_scale sawtooth) sqrt_near_52 settings 0). simpl; lia.
Defined.

(** C10.  With [n_weeks <= 0] the lists are empty and the first assignment
    to position 0 raises [IndexError]: no trajectory is returned, whatever
    the other settings and the draws. *)
Theorem nonpositive_n_weeks_raises normal np_sqrt c (k : nat) :
  (n_weeks c ≤ 0)%Z →
  run_single_simulation normal np_sqrt c k = Raise IndexError.
Proof.
  intros Hn. unfold run_single_simulation.
  assert (zeros (n_weeks c) = []) as ->.
  { unfold zeros. by replace (Z.to_nat (n_weeks c)) with 0%nat by lia. }
  cbv zeta. by rewrite setitem_nil.
Qed.

Lemma nonpositive_n_weeks_raises_witness :
  (n_weeks (Config (int 100) (int 1000) (int 4) (int 1000) (int 1000) (int 10)
              (int 12) (int 8) (int 8) (int 4) (int 10) (int 300) (int 100)
              (int 16000) (-3)) ≤ 0)%Z
  ∧ run_single_simulation (location_scale sawtooth) sqrt_near_52
      (Config (int 100) (int 1000) (int 4) (int 1000) (int 1000) (int 10)
         (int 12) (int 8) (int 8) (int 4) (int 10) (int 300) (int 100)
         (int 16000) (-3)) 0
    = Raise IndexError.
Proof.
  split; [simpl; lia|].
  apply (nonpositive_n_weeks_raises (location_scale sawtooth) sqrt_near_52).
  simpl; lia.
Defined.

(** C9.  Two runs of at least one week with the same settings, started at
    any two points of any two generators, return the same four lists as soon
    as the generators answer alike the [3 * (n_weeks - 1)] calls that each
    run makes; and one iteration of the loop computes its lists from the
    lists it is given, the settings and its three draws alone. *)
Theorem same_draws_same_trajectories normal1 normal2 np_sqrt c (k1 k2 : nat) :
  (1 ≤ n_weeks c)%Z →
  (∀ (i : nat) loc scale, (i < 3 * (Z.to_nat (n_weeks c) - 1))%nat →
     normal1 (k1 + i)%nat loc scale = normal2 (k2 + i)%nat loc scale) →
  (∃ a k1' k2',
     run_single_simulation normal1 np_sqrt c k1 = Ok (a, k1')
     ∧ run_single_simulation normal2 np_sqrt c k2 = Ok (a, k2'))
  ∧ (∀ m1 m2 week a0 (j1 j2 : nat) a1 j1',
       (∀ (i : nat) loc scale, (i < 3)%nat →
          m1 (j1 + i)%nat loc scale = m2 (j2 + i)%nat loc scale) →
       week_update m1 np_sqrt c week (a0, j1) = Ok (a1, j1') →
       week_update m2 np_sqrt c week (a0, j2) = Ok (a1, (j2 + 3)%nat)).
Proof.
  intros Hn Hsame. split; [|intros *; apply week_update_same_draws].
  destruct (run_single_simulation_inv normal1 np_sqrt c k1 Hn)
    as (a1 & Hrun1 & Hinv1).
  destruct (run_single_simulation_inv normal2 np_sqrt c k2 Hn)
    as (a2 & Hrun2 & Hinv2).
  exists a1, (k1 + 3 * (Z.to_nat (n_weeks c) - 1))%nat,
         (k2 + 3 * (Z.to_nat (n_weeks c) - 1))%nat.
  split; [done|]. rewrite Hrun2. do 2 f_equal. symmetry.
  eapply loop_inv_determined; [|done|done|..]; [lia|..]; intros w p Hw.
  - unfold savings_next. by rewrite Hsame by lia.
  - unfold isa_next. rewrite <- !Nat.add_assoc. by rewrite Hsame by lia.
  - unfold lisa_next. rewrite <- !Nat.add_assoc. by rewrite Hsame by lia.
Qed.

Lemma same_draws_same_trajectories_witness :
  (1 ≤ n_weeks settings)%Z
  ∧ ∃ a k1' k2',
      run_single_simulation (location_scale sawtooth) sqrt_near_52 settings 0
      = Ok (a, k1')
      ∧ run_single_simulation (location_scale sawtooth) sqrt_near_52 settings 3
        = Ok (a, k2').
Proof.
  split; [simpl; lia|].
  apply (same_draws_same_trajectories
           (location_scale sawtooth) (location_scale sawtooth) sqrt_near_52
           settings 0 3); [simpl; lia|].
  intros i loc scale _. unfold location_scale, sawtooth.
  replace (3 + i)%nat with (i + 1 * 3)%nat by lia.
  by rewrite Nat.Div0.mod_add.
Defined.




(** C8.  [simulate] with settings of at least one week and [n >= 1] runs
    returns.  Its two lists of final values have one entry per run, in order:
    savings plus current account, and the sum of the four accounts, each at
    the last week of that run.  Each percentage is 100 times a quotient
    [count / n] that lies between 0 and 1, where [count] is the number of runs
    whose final value is strictly below the reference: zero for savings plus
    current account, the sum of the four initial balances for the total. *)
Theorem fraction_below_reference normal np_sqrt c (n : Z) (k : nat) :
  (1 ≤ n_weeks c)%Z → (1 ≤ n)%Z →
  ∃ (st : statistics) (rs : list accounts),
    simulate_with normal np_sqrt c n k = Ok st
    ∧ length rs = Z.to_nat n
    ∧ (∀ (i : nat) a, rs !! i = Some a →
         run_single_simulation normal np_sqrt c
           (k + i * draws_per_run (n_weeks c))%nat
         = Ok (a, (k + S i * draws_per_run (n_weeks c))%nat)
         ∧ ∃ s cu x y,
             getitem (savings_account a) (-1) = Ok s
             ∧ getitem (current_account a) (-1) = Ok cu
             ∧ getitem (isa a) (-1) = Ok x
             ∧ getitem (lisa a) (-1) = Ok y
             ∧ current_and_savings_final st !! i = Some (s + cu)
             ∧ total_final st !! i = Some (s + cu + x + y))
    ∧ length (current_and_savings_final st) = Z.to_nat n
    ∧ length (total_final st) = Z.to_nat n
    ∧ total_start st
      = current_account_balance_now c + savings_account_balance_now c
        + isa_balance_now c + lisa_balance_now c
    ∧ let count_1 :=
        length (filter (λ x, x < int 0) (current_and_savings_final st)) in
      let count_2 :=
        length (filter (λ x, x < total_start st) (total_final st)) in
      let fraction_1 := int (Z.of_nat count_1) / int n in
      let fraction_2 := int (Z.of_nat count_2) / int n in
      p_lower_current_and_savings st = fraction_1 * int 100
      ∧ p_lower_total st = fraction_2 * int 100
      ∧ (0 ≤ fraction_1 ∧ fraction_1 ≤ 1)
      ∧ (0 ≤ fraction_2 ∧ fraction_2 ≤ 1).
Proof.
  intros Hweeks Hn.
  destruct (simulate_with_Ok normal np_sqrt c n k Hweeks Hn)
    as (rs & Hlen & Hruns & Hsim).
  cbv zeta in Hsim. eexists _, rs. split; [exact Hsim|]. simpl.
  split; [done|]. split; [|split; [|split; [|split]]].
  - intros i a Ha. split; [by apply Hruns|].
    destruct (run_lists_nonempty normal np_sqrt c _ _ _ Hweeks (Hruns i a Ha))
      as (Hs & Hc & Hi & Hl).
    exists (last_balance (savings_account a)),
           (last_balance (current_account a)),
           (last_balance (isa a)), (last_balance (lisa a)).
    rewrite !list_lookup_fmap, Ha.
    repeat split; by apply getitem_last_balance.
  - by rewrite length_fmap.
  - by rewrite length_fmap.
  - done.
  - repeat split.
    + apply fraction_bounds; [|lia].
      pose proof (length_filter (λ x, x < int 0)
                    ((λ a, last_balance (savings_account a)
                           + last_balance (current_account a)) <$> rs)) as Hle.
      rewrite length_fmap in Hle. lia.
    + apply fraction_bounds; [|lia].
      pose proof (length_filter (λ x, x < int 0)
                    ((λ a, last_balance (savings_account a)
                           + last_balance (current_account a)) <$> rs)) as Hle.
      rewrite length_fmap in Hle. lia.
    + apply fraction_bounds; [|lia].
      match goal with
      | |- context [filter ?P ?l] =>
          pose proof (length_filter P l) as Hle
      end.
      rewrite length_fmap in Hle. lia.
    + apply fraction_bounds; [|lia].
      match goal with
      | |- context [filter ?P ?l] =>
          pose proof (length_filter P l) as Hle
      end.
      rewrite length_fmap in Hle. lia.
Qed.

Lemma fraction_below_reference_witness :
  (1 ≤ n_weeks settings)%Z ∧ (1 ≤ 2)%Z
  ∧ ∃ st : statistics,
      simulate_with (location_scale sawtooth) sqrt_near_52 settings 2 0 = Ok st
      ∧ length (total_final st) = 2%nat
      ∧ p_lower_total st
        = int (Z.of_nat (length (filter (λ x, x < total_start st)
                                   (total_final st)))) / int 2 * int 100.
Proof.
  split; [simpl; lia|]. split; [lia|].
  destruct (fraction_below_reference
              (location_scale sawtooth) sqrt_near_52 settings 2 0)
    as (st & rs & Hsim & _ & _ & _ & Hlen & _ & _ & Hp & _);
    [simpl; lia | lia |].
  exists st. repeat split; assumption.
Defined.

(** ** Settings under which nothing moves *)

Section Scenario.

Variable normal : nat → Qc → Qc → Qc.
Variable np_sqrt : Qc → Qc.
Hypothesis normal_degenerate : degenerate normal.

(** The four lists that every run of the scenario returns. *)
Let steady : accounts :=
  Accounts (replicate 5 (int 1000)) (replicate 5 (int 1000))
           (replicate 5 (int 100)) (replicate 5 (int 1000)).

Lemma constant_list (l : list Qc) (j : nat) x :
  length l = S j → l !! 0%nat = Some x → follows (λ _ prev, prev) l j →
  l = replicate (S j) x.
Proof.
  intros Hlen H0 Hl. symmetry. apply replicate_as_Forall_2; [done|].
  apply Forall_lookup. intros i y Hy.
  assert (i < S j)%nat by (rewrite <- Hlen; by eapply lookup_lt_Some).
  rewrite (follows_id_constant l j x H0 Hl i) in Hy by lia. congruence.
Qed.

Lemma scenario_run (k : nat) :
  run_single_simulation normal np_sqrt scenario k = Ok (steady, (k + 12)%nat).
Proof.
  destruct (run_single_simulation_inv normal np_sqrt scenario k)
    as (a & Hrun & [Hl1 Hl2 Hl3 Hl4 Hh1 Hh2 Hh3 Hh4 Hf1 Hf2 Hf3 Hf4]);
    [simpl; lia|].
  rewrite Hrun. simpl in *. do 2 f_equal.
  destruct a as [l s cu i]. simpl in *. unfold steady. f_equal.
  - apply (constant_list l 4); [done..|].
    eapply follows_ext; [|exact Hf1]. intros w p _. simpl.
    rewrite lisa_next_degenerate by done. simpl.
    rewrite int_0. unfold Qcdiv. ring.
  - apply (constant_list s 4); [done..|].
    eapply follows_ext; [|exact Hf2]. intros w p _. simpl.
    rewrite savings_next_degenerate by done. simpl.
    rewrite int_0. unfold Qcdiv. ring.
  - by apply (constant_list cu 4).
  - apply (constant_list i 4); [done..|].
    eapply follows_ext; [|exact Hf4]. intros w p _. simpl.
    rewrite isa_next_degenerate by done. simpl.
    rewrite int_0. unfold Qcdiv. ring.
Qed.

End Scenario.

(** C7.  With the settings of the scenario (100 in the current account, 1000
    in each of the three others, every deviation, rate, payment, spending and
    income zero, five weeks) and a generator that returns [loc] at scale
    zero, a run returns four lists of five entries, each constant at the
    initial balance of its account; and for every number [n >= 1] of runs the
    sum of the four final balances is 3100 in each run and the mean of these
    sums is 3100. *)
Theorem scenario_is_steady normal np_sqrt (k : nat) (n : Z) :
  degenerate normal → (1 ≤ n)%Z →
  run_single_simulation normal np_sqrt scenario k
  = Ok ({| lisa := replicate 5 (int 1000);
           savings_account := replicate 5 (int 1000);
           current_account := replicate 5 (int 100);
           isa := replicate 5 (int 1000) |}, (k + 12)%nat)
  ∧ ∃ st : statistics,
      simulate_with normal np_sqrt scenario n k = Ok st
      ∧ total_final st = replicate (Z.to_nat n) (int 3100)
      ∧ mean_total st = Some (int 3100).
Proof.
  intros Hdeg Hn. split; [by apply scenario_run|].
  destruct (simulate_with_Ok normal np_sqrt scenario n k) as (rs & Hlen & Hruns & Hsim);
    [simpl; lia | done |].
  cbv zeta in Hsim. eexists. split; [exact Hsim|]. simpl.
  assert (Hall : Forall (λ x, x = int 3100)
                   ((λ a, last_balance (savings_account a)
                          + last_balance (current_account a)
                          + last_balance (isa a)
                          + last_balance (lisa a)) <$> rs)).
  { apply Forall_fmap, Forall_lookup. intros i a Ha. simpl.
    apply Hruns in Ha. rewrite (scenario_run normal np_sqrt Hdeg) in Ha.
    injection Ha as <-. by apply Qc_is_canon. }
  split.
  - symmetry. apply replicate_as_Forall_2; [by rewrite length_fmap|].
    revert Hall. apply Forall_impl. by intros x ->.
  - apply np_mean_constant; [|done].
    destruct rs; [simpl in Hlen; lia | done].
Qed.

Lemma scenario_is_steady_witness :
  (1 ≤ 3)%Z
  ∧ run_single_simulation (location_scale sawtooth) sqrt_near_52 scenario 0
    = Ok ({| lisa := replicate 5 (int 1000);
             savings_account := replicate 5 (int 1000);
             current_account := replicate 5 (int 100);
             isa := replicate 5 (int 1000) |}, 12%nat)
  ∧ ∃ st : statistics,
      simulate_with (location_scale sawtooth) sqrt_near_52 scenario 3 0 = Ok st
      ∧ total_final st = replicate 3 (int 3100)
      ∧ mean_total st = Some (int 3100).
Proof.
  split; [lia|].
  apply (scenario_is_steady (location_scale sawtooth) sqrt_near_52 0 3);
    [apply location_scale_degenerate | lia].
Defined.

(** * Further properties of the runs *)

(** Two lists that start alike and follow the same recurrence agree as far
    as the recurrence goes. *)
Lemma follows_agree step (l1 l2 : list Qc) (j : nat) :
  l1 !! 0%nat = l2 !! 0%nat → follows step l1 j → follows step l2 j →
  ∀ i : nat, (i ≤ j)%nat → l1 !! i = l2 !! i.
Proof.
  intros Hhead H1 H2 i. induction i as [|i IH]; intros Hi; [done|].
  destruct (H1 (S i)) as (p1 & Hp1 & ->); [lia|].
  destruct (H2 (S i)) as (p2 & Hp2 & ->); [lia|].
  replace (S i - 1)%nat with i in * by lia.
  rewrite Hp1, Hp2 in IH. by injection (IH ltac:(lia)) as ->.
Qed.

Lemma follows_prefix step (l1 l2 : list Qc) (N1 j1 j2 : nat) :
  N1 = S j1 → (j1 ≤ j2)%nat → length l1 = N1 → length l2 = S j2 →
  l1 !! 0%nat = l2 !! 0%nat → follows step l1 j1 → follows step l2 j2 →
  l1 = take N1 l2.
Proof.
  intros -> Hj Hlen1 Hlen2 Hhead H1 H2. apply list_eq. intros i.
  destruct (decide (i ≤ j1)%nat) as [Hi|Hi].
  - rewrite lookup_take_lt by lia.
    apply (follows_agree step l1 l2 j1); [done|done| |done].
    by apply (follows_weaken _ _ j2).
  - rewrite lookup_take_ge by lia. apply lookup_ge_None_2. lia.
Qed.

(** A balance that the recurrence maps to itself stays where it is. *)
Lemma follows_fixed step (l : list Qc) (j : nat) x :
  l !! 0%nat = Some x → follows step l j →
  (∀ w : nat, (1 ≤ w ≤ j)%nat → step w x = x) →
  ∀ w : nat, (w ≤ j)%nat → l !! w = Some x.
Proof.
  intros H0 Hl Hfix w. induction w as [|w IH]; intros Hw; [done|].
  destruct (Hl (S w)) as (prev & Hprev & ->); [lia|].
  replace (S w - 1)%nat with w in Hprev by lia.
  rewrite IH in Hprev by lia. injection Hprev as <-.
  by rewrite Hfix by lia.
Qed.

(** X1.  A run over [n_weeks >= 1] weeks returns four lists of exactly
    [n_weeks] entries each, one per week, whatever the draws. *)
Theorem run_lists_have_n_weeks_entries normal np_sqrt c (k : nat) :
  (1 ≤ n_weeks c)%Z →
  ∃ a k',
    run_single_simulation normal np_sqrt c k = Ok (a, k')
    ∧ Z.of_nat (length (savings_account a)) = n_weeks c
    ∧ Z.of_nat (length (current_account a)) = n_weeks c
    ∧ Z.of_nat (length (isa a)) = n_weeks c
    ∧ Z.of_nat (length (lisa a)) = n_weeks c.
Proof.
  intros Hn.
  destruct (run_single_simulation_inv normal np_sqrt c k Hn)
    as (a & Hrun & [Hl1 Hl2 Hl3 Hl4 _ _ _ _ _ _ _ _]).
  exists a, (k + 3 * (Z.to_nat (n_weeks c) - 1))%nat.
  split; [done|]. rewrite Hl1, Hl2, Hl3, Hl4. lia.
Qed.

Lemma run_lists_have_n_weeks_entries_witness :
  ∃ a k',
    run_single_simulation (location_scale sawtooth) sqrt_near_52 settings 0
    = Ok (a, k')
    ∧ Z.of_nat (length (savings_account a)) = 52%Z
    ∧ Z.of_nat (length (current_account a)) = 52%Z
    ∧ Z.of_nat (length (isa a)) = 52%Z
    ∧ Z.of_nat (length (lisa a)) = 52%Z.
Proof.
  apply (run_lists_have_n_weeks_entries
           (location_scale sawtooth) sqrt_near_52 settings 0).
  simpl; lia.
Defined.

(** X3.  Projecting further does not change the weeks already projected:
    with the same generator, starting point and other settings, the lists of
    a run over [n1] weeks are the first [n1] entries of the lists of a run
    over [n2 >= n1] weeks. *)
Theorem longer_horizon_extends normal np_sqrt c (n1 n2 : Z) (k : nat) :
  (1 ≤ n1)%Z → (n1 ≤ n2)%Z →
  ∃ a1 a2 k1 k2,
    run_single_simulation normal np_sqrt (with_n_weeks c n1) k = Ok (a1, k1)
    ∧ run_single_simulation normal np_sqrt (with_n_weeks c n2) k = Ok (a2, k2)
    ∧ savings_account a1 = take (Z.to_nat n1) (savings_account a2)
    ∧ current_account a1 = take (Z.to_nat n1) (current_account a2)
    ∧ isa a1 = take (Z.to_nat n1) (isa a2)
    ∧ lisa a1 = take (Z.to_nat n1) (lisa a2).
Proof.
  intros Hn1 Hn2.
  destruct (run_single_simulation_inv normal np_sqrt (with_n_weeks c n1) k)
    as (a1 & Hrun1 & [Hl1 Hl2 Hl3 Hl4 Hh1 Hh2 Hh3 Hh4 Hf1 Hf2 Hf3 Hf4]);
    [simpl; lia|].
  destruct (run_single_simulation_inv normal np_sqrt (with_n_weeks c n2) k)
    as (a2 & Hrun2 & [Gl1 Gl2 Gl3 Gl4 Gh1 Gh2 Gh3 Gh4 Gf1 Gf2 Gf3 Gf4]);
    [simpl; lia|].
  cbn [n_weeks with_n_weeks] in *.
  exists a1, a2, (k + 3 * (Z.to_nat n1 - 1))%nat, (k + 3 * (Z.to_nat n2 - 1))%nat.
  split; [done|]. split; [done|].
  repeat split.
  - eapply (follows_prefix _ _ _ _ (Z.to_nat n1 - 1) (Z.to_nat n2 - 1));
      [lia|lia|done|lia|by rewrite Hh2, Gh2|exact Hf2|exact Gf2].
  - eapply (follows_prefix _ _ _ _ (Z.to_nat n1 - 1) (Z.to_nat n2 - 1));
      [lia|lia|done|lia|by rewrite Hh3, Gh3|exact Hf3|exact Gf3].
  - eapply (follows_prefix _ _ _ _ (Z.to_nat n1 - 1) (Z.to_nat n2 - 1));
      [lia|lia|done|lia|by rewrite Hh4, Gh4|exact Hf4|exact Gf4].
  - eapply (follows_prefix _ _ _ _ (Z.to_nat n1 - 1) (Z.to_nat n2 - 1));
      [lia|lia|done|lia|by rewrite Hh1, Gh1|exact Hf1|exact Gf1].
Qed.

Lemma longer_horizon_extends_witness :
  ∃ a1 a2 k1 k2,
    run_single_simulation (location_scale sawtooth) sqrt_near_52
      (with_n_weeks settings 10) 0 = Ok (a1, k1)
    ∧ run_single_simulation (location_scale sawtooth) sqrt_near_52
        (with_n_weeks settings 52) 0 = Ok (a2, k2)
    ∧ savings_account a1 = take 10 (savings_account a2)
    ∧ current_account a1 = take 10 (current_account a2)
    ∧ isa a1 = take 10 (isa a2)
    ∧ lisa a1 = take 10 (lisa a2).
Proof.
  apply (longer_horizon_extends
           (location_scale sawtooth) sqrt_near_52 settings 10 52 0); lia.
Defined.

(** X4.  Money paid into the ISA and the LISA is not taken from the savings
    account: two runs whose settings agree on the savings and current
    accounts, on spending, on income and on the number of weeks return the
    same savings and current-account lists, however their ISA and LISA
    settings differ. *)
Theorem savings_ignore_investment_settings normal np_sqrt c1 c2 (k : nat) :
  (1 ≤ n_weeks c1)%Z → n_weeks c2 = n_weeks c1 →
  savings_account_balance_now c2 = savings_account_balance_now c1 →
  savings_account_interest c2 = savings_account_interest c1 →
  weekly_spendings_mean c2 = weekly_spendings_mean c1 →
  weekly_spendings_stdev c2 = weekly_spendings_stdev c1 →
  annual_inflow c2 = annual_inflow c1 →
  current_account_balance_now c2 = current_account_balance_now c1 →
  ∃ a1 a2 k1 k2,
    run_single_simulation normal np_sqrt c1 k = Ok (a1, k1)
    ∧ run_single_simulation normal np_sqrt c2 k = Ok (a2, k2)
    ∧ savings_account a1 = savings_account a2
    ∧ current_account a1 = current_account a2.
Proof.
  intros Hn Hweeks Hbal Hint Hmean Hsd Hin Hcur.
  destruct (run_single_simulation_inv normal np_sqrt c1 k Hn)
    as (a1 & Hrun1 & [_ Hl2 Hl3 _ _ Hh2 Hh3 _ _ Hf2 Hf3 _]).
  destruct (run_single_simulation_inv normal np_sqrt c2 k)
    as (a2 & Hrun2 & [_ Gl2 Gl3 _ _ Gh2 Gh3 _ _ Gf2 Gf3 _]); [lia|].
  rewrite Hweeks in *.
  exists a1, a2, (k + 3 * (Z.to_nat (n_weeks c1) - 1))%nat,
         (k + 3 * (Z.to_nat (n_weeks c1) - 1))%nat.
  split; [done|]. split; [done|]. split.
  - apply (follows_determined
             (λ w, savings_next normal c1 (k + 3 * (w - 1)))
             _ _ (Z.to_nat (n_weeks c1) - 1)); [lia|lia|congruence|done|].
    eapply follows_ext; [|exact Gf2]. intros w p _. unfold savings_next.
    by rewrite Hint, Hmean, Hsd, Hin.
  - apply (follows_determined (λ _ prev, prev)
             _ _ (Z.to_nat (n_weeks c1) - 1)); [lia|lia|congruence|done|done].
Qed.

Lemma savings_ignore_investment_settings_witness :
  ∃ a1 a2 k1 k2,
    run_single_simulation (location_scale sawtooth) sqrt_near_52 settings 0
    = Ok (a1, k1)
    ∧ run_single_simulation (location_scale sawtooth) sqrt_near_52
        (Config (int 100) (int 1000) (int 4) (int 0) (int 5000) (int 250)
           (int 20) (int 3) (int 1) (int 2) (int 0) (int 300) (int 100)
           (int 16000) 52) 0
      = Ok (a2, k2)
    ∧ savings_account a1 = savings_account a2
    ∧ current_account a1 = current_account a2.
Proof.
  apply (savings_ignore_investment_settings
           (location_scale sawtooth) sqrt_near_52 settings
           (Config (int 100) (int 1000) (int 4) (int 0) (int 5000) (int 250)
              (int 20) (int 3) (int 1) (int 2) (int 0) (int 300) (int 100)
              (int 16000) 52) 0);
    try reflexivity.
  simpl; lia.
Defined.

(** X5.  An account that is not used stays empty whatever the draws: with
    [isa_balance_now = 0] and [isa_weekly_payment = 0] the ISA balance is 0
    at every week, and likewise for the LISA. *)
Theorem unused_investment_accounts_stay_zero normal np_sqrt c (k : nat) (w : Z) :
  (1 ≤ n_weeks c)%Z → (0 ≤ w ≤ n_weeks c - 1)%Z →
  ∃ a k',
    run_single_simulation normal np_sqrt c k = Ok (a, k')
    ∧ (isa_balance_now c = int 0 → isa_weekly_payment c = int 0 →
       getitem (isa a) w = Ok (int 0))
    ∧ (lisa_balance_now c = int 0 → lisa_weekly_payment c = int 0 →
       getitem (lisa a) w = Ok (int 0)).
Proof.
  intros Hn Hw.
  destruct (run_single_simulation_inv normal np_sqrt c k Hn)
    as (a & Hrun & [_ _ _ _ Hh1 _ _ Hh4 Hf1 _ _ Hf4]).
  exists a, (k + 3 * (Z.to_nat (n_weeks c) - 1))%nat.
  split; [done|]. split; intros Hbal Hpay; apply getitem_nonneg; try lia.
  - rewrite Hbal in Hh4.
    apply (follows_fixed _ _ _ _ Hh4 Hf4); [|lia].
    intros v _. unfold isa_next. rewrite Hpay, int_0. simpl. ring.
  - rewrite Hbal in Hh1.
    apply (follows_fixed _ _ _ _ Hh1 Hf1); [|lia].
    intros v _. unfold lisa_next. rewrite Hpay, int_0. simpl. ring.
Qed.

Lemma unused_investment_accounts_stay_zero_witness :
  ∃ a k',
    run_single_simulation (location_scale sawtooth) sqrt_near_52
      (Config (int 100) (int 1000) (int 4) (int 0) (int 0) (int 0)
         (int 12) (int 8) (int 8) (int 4) (int 0) (int 300) (int 100)
         (int 16000) 52) 0 = Ok (a, k')
    ∧ getitem (isa a) 51 = Ok (int 0)
    ∧ getitem (lisa a) 51 = Ok (int 0).
Proof.
  destruct (unused_investment_accounts_stay_zero
              (location_scale sawtooth) sqrt_near_52
              (Config (int 100) (int 1000) (int 4) (int 0) (int 0) (int 0)
                 (int 12) (int 8) (int 8) (int 4) (int 0) (int 300) (int 100)
                 (int 16000) 52) 0 51)
    as (a & k' & Hrun & Hisa & Hlisa); [simpl; lia..|].
  exists a, k'. split; [exact Hrun|].
  split; [apply Hisa | apply Hlisa]; reflexivity.
Defined.

(** X8.  With zero deviations of spending and of the LISA, under a generator
    that returns [loc] at scale zero, the savings account and the LISA follow
    fixed recurrences, written as the source computes them: the savings
    balance of week [w] is the [w]-th iterate of
    [p -> b + b * (rate / 100) / 52] with [b = p + income / 52 - spending],
    and the LISA balance is the [w]-th iterate of
    [p -> b + b * (lisa_mean / 100 / 52)] with [b = p + payment * 1.25]. *)
Theorem savings_and_lisa_without_deviation normal np_sqrt c (k : nat) (w : Z) :
  (1 ≤ n_weeks c)%Z → (0 ≤ w ≤ n_weeks c - 1)%Z →
  degenerate normal →
  weekly_spendings_stdev c = int 0 → lisa_stdev c = int 0 →
  ∃ a k',
    run_single_simulation normal np_sqrt c k = Ok (a, k')
    ∧ getitem (savings_account a) w
      = Ok (Nat.iter (Z.to_nat w)
              (λ p, let b := p + annual_inflow c / int 52
                             - weekly_spendings_mean c in
                    b + b * (savings_account_interest c / int 100) / int 52)
              (savings_account_balance_now c))
    ∧ getitem (lisa a) w
      = Ok (Nat.iter (Z.to_nat w)
              (λ p, let b := p + lisa_weekly_payment c * Q2Qc (5 # 4) in
                    b + b * (lisa_mean c / int 100 / int 52))
              (lisa_balance_now c)).
Proof.
  intros Hn Hw Hdeg Hspend Hlisa.
  destruct (run_single_simulation_inv normal np_sqrt c k Hn)
    as (a & Hrun & [_ _ _ _ Hh1 Hh2 _ _ Hf1 Hf2 _ _]).
  exists a, (k + 3 * (Z.to_nat (n_weeks c) - 1))%nat. split; [done|].
  split; apply getitem_nonneg; try lia.
  - apply (follows_iter _ _ (Z.to_nat (n_weeks c) - 1)); [done| |lia].
    eapply follows_ext; [|exact Hf2].
    intros v p _. simpl. by apply savings_next_degenerate.
  - apply (follows_iter _ _ (Z.to_nat (n_weeks c) - 1)); [done| |lia].
    eapply follows_ext; [|exact Hf1].
    intros v p _. by apply lisa_next_at_scale_zero.
Qed.

Lemma savings_and_lisa_without_deviation_witness :
  ∃ a k',
    run_single_simulation (location_scale sawtooth) sqrt_near_52
      (Config (int 100) (int 1000) (int 4) (int 1000) (int 1000) (int 10)
         (int 12) (int 8) (int 0) (int 4) (int 10) (int 300) (int 0)
         (int 16000) 52) 0 = Ok (a, k')
    ∧ getitem (savings_account a) 1
      = Ok (let b := int 1000 + int 16000 / int 52 - int 300 in
            b + b * (int 4 / int 100) / int 52)
    ∧ getitem (lisa a) 1
      = Ok (let b := int 1000 + int 10 * Q2Qc (5 # 4) in
            b + b * (int 4 / int 100 / int 52)).
Proof.
  apply (savings_and_lisa_without_deviation
           (location_scale sawtooth) sqrt_near_52
           (Config (int 100) (int 1000) (int 4) (int 1000) (int 1000) (int 10)
              (int 12) (int 8) (int 0) (int 4) (int 10) (int 300) (int 0)
              (int 16000) 52) 0 1);
    try reflexivity; try apply location_scale_degenerate; simpl; lia.
Defined.

(** * Further properties of [simulate] *)

Lemma run_single_simulation_no_week normal np_sqrt c (k : nat) :
  (n_weeks c ≤ 0)%Z →
  run_single_simulation normal np_sqrt c k = Raise IndexError.
Proof.
  intros Hn. unfold run_single_simulation.
  assert (zeros (n_weeks c) = []) as ->.
  { unfold zeros. by replace (Z.to_nat (n_weeks c)) with 0%nat by lia. }
  cbv zeta. by rewrite setitem_nil.
Qed.

(** X9.  When the number of weeks in the settings is zero or negative,
    [simulate] with at least one run raises the [IndexError] of its first
    run; no statistics are computed.  The bound of five thousand weeks keeps
    the two dates that the source computes before the runs within what
    [datetime] holds and formats: the earlier one is then less than a
    century before the day of the run. *)
Theorem simulate_without_weeks_raises normal np_sqrt c (n : Z) (k : nat) :
  (-5000 ≤ n_weeks c ≤ 0)%Z → (1 ≤ n)%Z →
  simulate_with normal np_sqrt c n k = Raise IndexError.
Proof.
  intros [_ Hweeks] Hn.
  assert (Hbody : run_and_append normal np_sqrt c 0 (Results [] [] [] [], k)
                  = Raise IndexError).
  { unfold run_and_append. by rewrite run_single_simulation_no_week. }
  unfold simulate_with, range.
  rewrite Z.sub_0_r, seqZ_cons by lia. cbn [for_each].
  by rewrite Hbody.
Qed.

Lemma simulate_without_weeks_raises_witness :
  simulate_with (location_scale sawtooth) sqrt_near_52
    (with_n_weeks settings 0) 1000 0 = Raise IndexError.
Proof.
  apply (simulate_without_weeks_raises
           (location_scale sawtooth) sqrt_near_52
           (with_n_weeks settings 0) 1000 0); simpl; lia.
Defined.

(** ** Percentages *)

Section Percentage.

Context (P : Qc → Prop) `{∀ x, Decision (P x)}.

Lemma filter_all (l : list Qc) :
  length (filter P l) = length l ↔ Forall P l.
Proof.
  induction l as [|x l IH]; [by split|].
  rewrite filter_cons. pose proof (length_filter P l) as Hle.
  destruct (decide (P x)) as [Hx|Hx]; simpl.
  - rewrite Forall_cons_iff. split.
    + intros Hlen. split; [done|]. apply IH. lia.
    + intros [_ Hl]. f_equal. by apply IH.
  - split; [lia|]. intros Hl. by apply Forall_cons_iff in Hl as [? _].
Qed.

Lemma filter_none (l : list Qc) :
  length (filter P l) = 0%nat ↔ Forall (λ x, ¬ P x) l.
Proof.
  induction l as [|x l IH]; [by split|].
  rewrite filter_cons, Forall_cons_iff.
  destruct (decide (P x)) as [Hx|Hx]; simpl.
  - split; [lia|]. by intros [? _].
  - rewrite IH. split; [by intros ?; split | by intros [_ ?]].
Qed.

(** [len(l[P]) / n * 100] for an array [l] of [n >= 1] values. *)
Lemma percentage_facts (l : list Qc) (n : Z) :
  (1 ≤ n)%Z → length l = Z.to_nat n →
  let p := len (filter P l) / int n * int 100 in
  (0 ≤ p ∧ p ≤ int 100)
  ∧ (p = int 0 ↔ Forall (λ x, ¬ P x) l)
  ∧ (p = int 100 ↔ Forall P l).
Proof.
  intros Hn Hlen p.
  pose proof (length_filter P l) as Hle.
  assert (Hnz : int n ≠ 0) by (apply int_nonzero; lia).
  assert (H100 : int 100 ≠ 0) by (by apply int_nonzero).
  assert (Hpos : 0 ≤ int 100).
  { rewrite <- int_0. by apply (proj1 (Z2Qc_inj_le 0 100)). }
  destruct (fraction_bounds (Z.of_nat (length (filter P l))) n) as [Hf0 Hf1];
    [lia|lia|].
  fold (len (filter P l)) in Hf0, Hf1.
  assert (Hcount : len (filter P l) = p * int n / int 100).
  { unfold p. field. by split. }
  split; [split|split].
  - unfold p. rewrite <- (Qcmult_0_l (int 100)).
    by apply Qcmult_le_compat_r.
  - unfold p. rewrite <- (Qcmult_1_l (int 100)) at 2.
    by apply Qcmult_le_compat_r.
  - rewrite <- filter_none. split.
    + intros Hp. rewrite Hp, int_0 in Hcount.
      assert (Hz : len (filter P l) = int 0)
        by (rewrite Hcount, int_0; unfold Qcdiv; ring).
      apply Z2Qc_inj in Hz. lia.
    + intros Hnone. unfold p, len. rewrite Hnone.
      change (Z.of_nat 0) with 0%Z. rewrite int_0. unfold Qcdiv. ring.
  - rewrite <- filter_all. split.
    + intros Hp. rewrite Hp in Hcount.
      assert (Hz : len (filter P l) = int n) by (rewrite Hcount; by field).
      apply Z2Qc_inj in Hz. lia.
    + intros Hall. unfold p, len. rewrite Hall, Hlen, Z2Nat.id by lia.
      by field.
Qed.

End Percentage.

(** X10.  The two percentages that [simulate] reports lie between 0 and 100.
    The percentage for the total is 0 exactly when no run ends strictly below
    the initial total, and 100 exactly when every run does; likewise for
    savings plus current account and zero. *)
Theorem percentages_between_0_and_100 normal np_sqrt c (n : Z) (k : nat) :
  (1 ≤ n_weeks c)%Z → (1 ≤ n)%Z →
  ∃ st : statistics,
    simulate_with normal np_sqrt c n k = Ok st
    ∧ (0 ≤ p_lower_current_and_savings st
       ∧ p_lower_current_and_savings st ≤ int 100)
    ∧ (0 ≤ p_lower_total st ∧ p_lower_total st ≤ int 100)
    ∧ (p_lower_current_and_savings st = int 0
       ↔ Forall (λ x, ¬ x < int 0) (current_and_savings_final st))
    ∧ (p_lower_current_and_savings st = int 100
       ↔ Forall (λ x, x < int 0) (current_and_savings_final st))
    ∧ (p_lower_total st = int 0
       ↔ Forall (λ x, ¬ x < total_start st) (total_final st))
    ∧ (p_lower_total st = int 100
       ↔ Forall (λ x, x < total_start st) (total_final st)).
Proof.
  intros Hweeks Hn.
  destruct (simulate_with_Ok normal np_sqrt c n k Hweeks Hn)
    as (rs & Hlen & _ & Hsim).
  cbv zeta in Hsim. eexists. split; [exact Hsim|]. simpl.
  match goal with
  | |- context [filter (λ x, x < int 0) ?l] =>
      destruct (percentage_facts (λ x, x < int 0) l n Hn) as (Hb1 & Hz1 & Hh1);
        [by rewrite length_fmap|]
  end.
  match goal with
  | |- context [filter (λ x, x < ?ref) ?l] =>
      lazymatch ref with
      | int 0 => fail
      | _ => destruct (percentage_facts (λ x, x < ref) l n Hn)
               as (Hb2 & Hz2 & Hh2); [by rewrite length_fmap|]
      end
  end.
  cbv zeta in *. done.
Qed.

Lemma percentages_between_0_and_100_witness :
  ∃ st : statistics,
    simulate_with (location_scale sawtooth) sqrt_near_52 settings 2 0 = Ok st
    ∧ (0 ≤ p_lower_total st ∧ p_lower_total st ≤ int 100).
Proof.
  destruct (percentages_between_0_and_100
              (location_scale sawtooth) sqrt_near_52 settings 2 0)
    as (st & Hsim & _ & Hb & _); [simpl; lia | lia |].
  exists st. split; [exact Hsim | exact Hb].
Defined.

(** ** The final values, run by run *)

(** X11.  The lists of final values that [simulate] builds have one entry
    per run, and in each run the total is the sum of its parts: entry [i] of
    the totals is entry [i] of savings plus current account, plus entry [i]
    of the ISA, plus entry [i] of the LISA. *)
Theorem total_is_sum_of_parts normal np_sqrt c (n : Z) (k : nat) :
  (1 ≤ n_weeks c)%Z → (1 ≤ n)%Z →
  ∃ st : statistics,
    simulate_with normal np_sqrt c n k = Ok st
    ∧ Z.of_nat (length (current_and_savings_final st)) = n
    ∧ Z.of_nat (length (isa_final st)) = n
    ∧ Z.of_nat (length (lisa_final st)) = n
    ∧ Z.of_nat (length (total_final st)) = n
    ∧ ∀ (i : nat) b x y,
        current_and_savings_final st !! i = Some b →
        isa_final st !! i = Some x →
        lisa_final st !! i = Some y →
        total_final st !! i = Some (b + x + y).
Proof.
  intros Hweeks Hn.
  destruct (simulate_with_Ok normal np_sqrt c n k Hweeks Hn)
    as (rs & Hlen & _ & Hsim).
  cbv zeta in Hsim. eexists. split; [exact Hsim|]. simpl.
  rewrite !length_fmap, Hlen. repeat split; try lia.
  intros i b x y. rewrite !list_lookup_fmap.
  destruct (rs !! i) as [a|]; simpl; [|done].
  by intros [= <-] [= <-] [= <-].
Qed.

Lemma total_is_sum_of_parts_witness :
  ∃ st : statistics,
    simulate_with (location_scale sawtooth) sqrt_near_52 settings 2 0 = Ok st
    ∧ Z.of_nat (length (total_final st)) = 2%Z.
Proof.
  destruct (total_is_sum_of_parts
              (location_scale sawtooth) sqrt_near_52 settings 2 0)
    as (st & Hsim & _ & _ & _ & Hlen & _); [simpl; lia | lia |].
  exists st. split; [exact Hsim | exact Hlen].
Defined.

Lemma run_current_account_last normal np_sqrt c (k : nat) a k' :
  (1 ≤ n_weeks c)%Z →
  run_single_simulation normal np_sqrt c k = Ok (a, k') →
  last_balance (current_account a) = current_account_balance_now c.
Proof.
  intros Hn Hrun.
  destruct (run_single_simulation_inv normal np_sqrt c k Hn)
    as (a0 & Hrun0 & [_ _ Hl3 _ _ _ Hh3 _ _ _ Hf3 _]).
  rewrite Hrun0 in Hrun. injection Hrun as <- _.
  unfold last_balance. rewrite last_lookup, Hl3.
  by rewrite (follows_id_constant _ _ _ Hh3 Hf3) by lia.
Qed.

(** X12.  Because the current account never moves, the final value of
    savings plus current account of a run is the final savings balance of that
    run plus [current_account_balance_now]. *)
Theorem current_and_savings_is_savings_plus_buffer
    normal np_sqrt c (n : Z) (k : nat) (i : nat) :
  (1 ≤ n_weeks c)%Z → (1 ≤ n)%Z → (Z.of_nat i < n)%Z →
  ∃ (st : statistics) a k' s,
    simulate_with normal np_sqrt c n k = Ok st
    ∧ run_single_simulation normal np_sqrt c
        (k + i * draws_per_run (n_weeks c))%nat = Ok (a, k')
    ∧ getitem (savings_account a) (-1) = Ok s
    ∧ current_and_savings_final st !! i
      = Some (s + current_account_balance_now c).
Proof.
  intros Hweeks Hn Hi.
  destruct (simulate_with_Ok normal np_sqrt c n k Hweeks Hn)
    as (rs & Hlen & Hruns & Hsim).
  cbv zeta in Hsim.
  destruct (lookup_lt_is_Some_2 rs i) as [a Ha]; [lia|].
  pose proof (Hruns i a Ha) as Hrun.
  destruct (run_lists_nonempty normal np_sqrt c _ _ _ Hweeks Hrun)
    as (Hs & _).
  eexists _, a, _, (last_balance (savings_account a)).
  split; [exact Hsim|]. split; [exact Hrun|].
  split; [by apply getitem_last_balance|]. simpl.
  rewrite list_lookup_fmap, Ha. simpl.
  by rewrite (run_current_account_last normal np_sqrt c _ _ _ Hweeks Hrun).
Qed.

Lemma current_and_savings_is_savings_plus_buffer_witness :
  ∃ (st : statistics) a k' s,
    simulate_with (location_scale sawtooth) sqrt_near_52 settings 2 0 = Ok st
    ∧ run_single_simulation (location_scale sawtooth) sqrt_near_52 settings
        (0 + 1 * draws_per_run (n_weeks settings))%nat = Ok (a, k')
    ∧ getitem (savings_account a) (-1) = Ok s
    ∧ current_and_savings_final st !! 1%nat = Some (s + int 100).
Proof.
  apply (current_and_savings_is_savings_plus_buffer
           (location_scale sawtooth) sqrt_near_52 settings 2 0 1);
    [simpl; lia | lia | lia].
Defined.

Lemma np_mean_singleton (v : Qc) : np_mean [v] = Some v.
Proof. apply np_mean_constant; [done|]. by repeat constructor. Qed.

(** X13.  With a single run, each mean that [simulate] reports is the final
    value of that run. *)
Theorem single_run_means normal np_sqrt c (k : nat) :
  (1 ≤ n_weeks c)%Z →
  ∃ (st : statistics) a k' s cu x y,
    run_single_simulation normal np_sqrt c k = Ok (a, k')
    ∧ getitem (savings_account a) (-1) = Ok s
    ∧ getitem (current_account a) (-1) = Ok cu
    ∧ getitem (isa a) (-1) = Ok x
    ∧ getitem (lisa a) (-1) = Ok y
    ∧ simulate_with normal np_sqrt c 1 k = Ok st
    ∧ mean_current_and_savings st = Some (s + cu)
    ∧ mean_isa st = Some x
    ∧ mean_lisa st = Some y
    ∧ mean_total st = Some (s + cu + x + y).
Proof.
  intros Hweeks.
  destruct (simulate_with_Ok normal np_sqrt c 1 k Hweeks) as (rs & Hlen & Hruns & Hsim);
    [lia|].
  cbv zeta in Hsim.
  destruct rs as [|a [|??]]; try (simpl in Hlen; lia).
  pose proof (Hruns 0%nat a eq_refl) as Hrun.
  rewrite Nat.mul_0_l, Nat.add_0_r in Hrun.
  destruct (run_lists_nonempty normal np_sqrt c _ _ _ Hweeks Hrun)
    as (Hs & Hc & Hi & Hl).
  eexists _, a, _, (last_balance (savings_account a)),
          (last_balance (current_account a)),
          (last_balance (isa a)), (last_balance (lisa a)).
  split; [exact Hrun|].
  do 4 (split; [by apply getitem_last_balance|]).
  split; [exact Hsim|]. simpl.
  repeat split; exact (np_mean_singleton _).
Qed.

Lemma single_run_means_witness :
  ∃ (st : statistics) a k' x,
    run_single_simulation (location_scale sawtooth) sqrt_near_52 settings 0
    = Ok (a, k')
    ∧ getitem (isa a) (-1) = Ok x
    ∧ simulate_with (location_scale sawtooth) sqrt_near_52 settings 1 0 = Ok st
    ∧ mean_isa st = Some x.
Proof.
  destruct (single_run_means (location_scale sawtooth) sqrt_near_52 settings 0)
    as (st & a & k' & s & cu & x & y & Hrun & _ & _ & Hx & _ & Hsim & _ & Hm & _);
    [simpl; lia|].
  exists st, a, k', x.
  split; [exact Hrun|]. split; [exact Hx|]. split; [exact Hsim | exact Hm].
Defined.

(** X14.  The computation of [main()], a thousand runs of 52 weeks with the
    settings of the source, cannot raise, whatever the draws and whatever
    [np.sqrt] returns: it yields a thousand final values of each kind, and
    the initial total against which they are compared is 3100. *)
Theorem main_returns normal np_sqrt :
  ∃ st : statistics,
    main normal np_sqrt = Ok st
    ∧ length (current_and_savings_final st) = 1000%nat
    ∧ length (isa_final st) = 1000%nat
    ∧ length (lisa_final st) = 1000%nat
    ∧ length (total_final st) = 1000%nat
    ∧ total_start st = int 3100.
Proof.
  destruct (simulate_with_Ok normal np_sqrt settings 1000 0)
    as (rs & Hlen & _ & Hsim); [simpl; lia | lia |].
  cbv zeta in Hsim. eexists. split; [exact Hsim|].
  cbn [current_and_savings_final isa_final lisa_final total_final total_start].
  rewrite !length_fmap, Hlen.
  do 4 (split; [reflexivity|]).
  apply Qc_is_canon. vm_compute. reflexivity.
Qed.

(** ** Runs and their draws *)



